(** * Reference-comparison oracle of the BOPTEST testing utilities

    A shallow embedding of [testing/utilities.py]: the trajectory comparator
    [check_trajectory], the resampler [create_test_points], the reference
    store ([compare_ref_timeseries_df], [compare_ref_values_df]), the
    scenario runners ([run_time_period], [run_season]) with [results_to_df]
    and [get_all_points], and the directory cleaner [clean_up].

    Python values are embedded as follows.
    - A number is an element of a type carrying the [PyNumber] operations.
      Two number systems are provided: exact rational arithmetic ([Q], the
      reals of the specification) and IEEE-754 binary64 ([spec_float] with
      precision 53 and maximal exponent 1024, what CPython and NumPy
      compute with).
    - An exception is an outcome [Raise e]; a normal return is [Ok v].
    - [str.format] is kept as the pair of its template and its arguments
      ([PyFormat]): rendering numbers to text is left to the runtime. *)

From Stdlib Require Import ZArith QArith Qabs Qround Qpower Lqa Lia Bool Sorted SpecFloat Ascii.
From stdpp Require Import base option list strings gmap.

(** ** Python values and exceptions *)

#[warnings="-register-all"]
Inductive pyval (A : Type) : Type :=
| PyNone
| PyInt (z : Z)
| PyNum (x : A)
| PyStr (s : string)
| PyTuple (items : list (pyval A))
| PyFormat (template : string) (args : list (pyval A)).

Arguments PyNone {A}.
Arguments PyInt {A} z.
Arguments PyNum {A} x.
Arguments PyStr {A} s.
Arguments PyTuple {A} items.
Arguments PyFormat {A} template args.

Inductive exception (A : Type) : Type :=
| AssertionError (msg : pyval A)
| IndexError
| KeyError (key : string)
| ValueError
| ZeroDivisionError
| HTTPError.

Arguments AssertionError {A} msg.
Arguments IndexError {A}.
Arguments KeyError {A} key.
Arguments ValueError {A}.
Arguments ZeroDivisionError {A}.
Arguments HTTPError {A}.

Inductive exc (A X : Type) : Type :=
| Ok (x : X)
| Raise (e : exception A).

Arguments Ok {A X} x.
Arguments Raise {A X} e.

Definition exc_bind {A X Y} (f : X → exc A Y) (m : exc A X) : exc A Y :=
  match m with
  | Ok x => f x
  | Raise e => Raise e
  end.

#[global] Instance exc_mbind {A} : MBind (exc A) := @exc_bind A.
#[global] Instance exc_mret {A} : MRet (exc A) := @Ok A.

(** [for x in l: s = body x s], leaving the loop at the first exception. *)
Fixpoint for_loop {A I S} (body : I → S → exc A S) (l : list I) (s : S) : exc A S :=
  match l with
  | [] => Ok s
  | i :: l' => s' ← body i s; for_loop body l' s'
  end.

(** [a[i]] and [a[i] = v] on a list or array: [IndexError] out of range. *)
Definition get_item {A X} (a : list X) (i : nat) : exc A X :=
  match a !! i with
  | Some x => Ok x
  | None => Raise IndexError
  end.

Definition set_item {A X} (a : list X) (i : nat) (v : X) : exc A (list X) :=
  if decide (i < length a)%nat then Ok (<[i:=v]> a) else Raise IndexError.

(** ** Numbers *)

Class PyNumber (A : Type) : Type := {
  (** the decimal literal [m]e-[k] *)
  num_dec : Z → nat → A;
  num_add : A → A → A;
  num_sub : A → A → A;
  num_mul : A → A → A;
  num_div : A → A → A;
  num_abs : A → A;
  (** [x > y] and [x <= y] *)
  num_gtb : A → A → bool;
  num_leb : A → A → bool
}.

(** Exact arithmetic on rationals, every result in lowest terms. *)
#[global] Instance Q_number : PyNumber Q := {
  num_dec m k := Qred (inject_Z m / inject_Z (10 ^ Z.of_nat k));
  num_add x y := Qred (x + y);
  num_sub x y := Qred (x - y);
  num_mul x y := Qred (x * y);
  num_div x y := Qred (x / y);
  num_abs x := Qabs x;
  num_gtb x y := negb (Qle_bool x y);
  num_leb x y := Qle_bool x y
}.

(** IEEE-754 binary64, round to nearest even. *)
Definition binary64 : Type := spec_float.
Definition prec64 : Z := 53.
Definition emax64 : Z := 1024.
Definition Z2B64 (z : Z) : binary64 := binary_normalize prec64 emax64 z 0 false.

(** A decimal literal is read as the double nearest to it; the correctly
    rounded quotient of two integers below 2^53 is that double. *)
#[global] Instance binary64_number : PyNumber binary64 := {
  num_dec m k := SFdiv prec64 emax64 (Z2B64 m) (Z2B64 (10 ^ Z.of_nat k));
  num_add := SFadd prec64 emax64;
  num_sub := SFsub prec64 emax64;
  num_mul := SFmul prec64 emax64;
  num_div := SFdiv prec64 emax64;
  num_abs := SFabs;
  num_gtb x y := SFltb y x;
  num_leb x y := SFleb x y
}.

(** ** [check_trajectory] *)

Record result (A : Type) : Type := mk_result {
  Pass : bool;
  ErrorMax : pyval A;
  IndexMax : pyval A;
  Message : pyval A
}.

Arguments mk_result {A} Pass ErrorMax IndexMax Message.
Arguments Pass {A} r.
Arguments ErrorMax {A} r.
Arguments IndexMax {A} r.
Arguments Message {A} r.

Section CheckTrajectory.
Context {A : Type} `{PyNumber A}.

(** [tol = 1e-3] *)
Definition tol : A := num_dec 1 3.

(** an entry of [np.zeros] *)
Definition zero : A := num_dec 0 0.

(** The builtin [max] over a sequence: keep the first item, replace it by
    a later item only when that item compares greater. *)
Definition max_step (m y : A) : A := if num_gtb y m then y else m.

Definition py_max (l : list A) : exc A A :=
  match l with
  | [] => Raise ValueError
  | x :: l' => Ok (foldl max_step x l')
  end.

(** [np.argmax]: the index of the first maximal entry. The scan replaces
    the running maximum [mp] by an entry [x] unless [x <= mp], and stops
    at an entry that does not compare equal to itself (a NaN). *)
Fixpoint argmax_scan (mp : A) (i_max i : nat) (l : list A) : nat :=
  match l with
  | [] => i_max
  | x :: l' =>
      if num_leb x mp then argmax_scan mp i_max (S i) l'
      else if num_leb x x then argmax_scan x i (S i) l'
      else i
  end.

Definition np_argmax (l : list A) : exc A nat :=
  match l with
  | [] => Raise ValueError
  | x :: l' => Ok (if num_leb x x then argmax_scan x 0 1 l' else 0%nat)
  end.

Definition length_message : string :=
  "Test and reference trajectory not the same length.".

Definition tolerance_template : string :=
  "Max error ({0}) in trajectory greater than tolerance ({1}) at index {2}. y_test: {3}, y_ref:{4}".

(** The three error arrays and the result dictionary, as the loop sees
    them. *)
Record loop_state : Type := mk_loop_state {
  err_abs : list A;
  err_rel : list A;
  err_fun : list A;
  res : result A
}.

(** One pass through the body of [for i in range(len(y_ref))]. *)
Definition check_body (y_test y_ref : list A) (i : nat) (st : loop_state)
  : exc A loop_state :=
  yt ← get_item y_test i;
  yr ← get_item y_ref i;
  (* Absolute error *)
  err_abs ← set_item (err_abs st) i (num_abs (num_sub yt yr));
  (* Relative error *)
  yr' ← get_item y_ref i;
  err_rel ←
    (if num_gtb (num_abs yr') (num_mul (num_dec 10 0) tol)
     then ea ← get_item err_abs i;
          yr'' ← get_item y_ref i;
          set_item (err_rel st) i (num_div ea (num_abs yr''))
     else set_item (err_rel st) i (num_dec 0 0));
  (* Total error *)
  ea ← get_item err_abs i;
  er ← get_item err_rel i;
  err_fun ← set_item (err_fun st) i (num_add ea er);
  (* Assess error *)
  err_max ← py_max err_fun;
  i_max ← np_argmax err_fun;
  if num_gtb err_max tol then
    yt_max ← get_item y_test i_max;
    yr_max ← get_item y_ref i_max;
    Ok (mk_loop_state err_abs err_rel err_fun
          (mk_result false
             (PyTuple [PyNum err_max])
             (PyTuple [PyInt (Z.of_nat i_max)])
             (PyFormat tolerance_template
                [PyNum err_max; PyNum tol; PyInt (Z.of_nat i_max);
                 PyNum yt_max; PyNum yr_max])))
  else
    Ok (mk_loop_state err_abs err_rel err_fun (res st)).

Definition check_trajectory (y_test y_ref : list A) : exc A (result A) :=
  (* Initialize return dictionary *)
  let result := mk_result true PyNone PyNone PyNone in
  (* First, check that trajectories are same length *)
  if negb (length y_test =? length y_ref)%nat then
    Ok (mk_result false (ErrorMax result) (IndexMax result) (PyStr length_message))
  else
    (* Initialize error arrays *)
    let st := mk_loop_state (replicate (length y_ref) zero)
                            (replicate (length y_ref) zero)
                            (replicate (length y_ref) zero)
                            result in
    (* Calculate errors *)
    st' ← for_loop (check_body y_test y_ref) (seq 0 (length y_ref)) st;
    Ok (res st').

(** *** The specification's reading of the comparison *)

Definition abs_err (yt yr : A) : A := num_abs (num_sub yt yr).

Definition rel_err (yt yr : A) : A :=
  if num_gtb (num_abs yr) (num_mul (num_dec 10 0) tol)
  then num_div (abs_err yt yr) (num_abs yr)
  else zero.

Definition combined (yt yr : A) : A := num_add (abs_err yt yr) (rel_err yt yr).

Definition combined_errors (y_test y_ref : list A) : list A :=
  zip_with combined y_test y_ref.

Definition pass_result : result A := mk_result true PyNone PyNone PyNone.

(** The result dictionary of a tolerance failure, as the code fills it. *)
Definition fail_result (err_max : A) (i_max : nat) (yt yr : A) : result A :=
  mk_result false
    (PyTuple [PyNum err_max])
    (PyTuple [PyInt (Z.of_nat i_max)])
    (PyFormat tolerance_template
       [PyNum err_max; PyNum tol; PyInt (Z.of_nat i_max); PyNum yt; PyNum yr]).

(** *** Assessing the complete error array once

    The assessment the loop performs at every index, as a function of the
    error array, and the comparison that performs it a single time, after
    all entries are filled in. *)
Definition assess (y_test y_ref errs : list A) (r : result A) : exc A (result A) :=
  err_max ← py_max errs;
  i_max ← np_argmax errs;
  if num_gtb err_max tol then
    yt ← get_item y_test i_max;
    yr ← get_item y_ref i_max;
    Ok (fail_result err_max i_max yt yr)
  else Ok r.

Definition check_once (y_test y_ref : list A) : exc A (result A) :=
  if negb (length y_test =? length y_ref)%nat then
    Ok (mk_result false PyNone PyNone (PyStr length_message))
  else
    match combined_errors y_test y_ref with
    | [] => Ok pass_result
    | errs => assess y_test y_ref errs pass_result
    end.

(** The error arrays before the loop, and an error array of length [n]
    whose first [k] entries are filled in from [v]. *)
Definition initial_state (n : nat) : loop_state :=
  mk_loop_state (replicate n zero) (replicate n zero) (replicate n zero) pass_result.

Definition filled (k n : nat) (v : list A) : list A :=
  take k v ++ replicate (n - k) zero.

End CheckTrajectory.

(** The order facts about the tolerance that the comparison relies on. *)
Class PyNumberLaws (A : Type) `{PyNumber A} : Prop := {
  gtb_zero_tol : num_gtb (zero : A) tol = false;
  gtb_trans_tol (c x : A) :
    num_gtb c tol = true → num_gtb x c = true → num_gtb x tol = true;
  leb_tol_not_gtb (x : A) : num_leb x tol = true → num_gtb x tol = false
}.

(** A binary64 value that is a real number: neither an infinity nor a NaN. *)
Definition is_finite (x : binary64) : bool :=
  match x with
  | S754_zero _ | S754_finite _ _ _ => true
  | _ => false
  end.


(** ** NumPy and the number formatter, in exact arithmetic

    The library routines that [create_test_points] calls are embedded by
    their documented real-number semantics, over [Q]. *)

(** [a.min()] and [a.max()]: [ValueError] on an empty array. *)
Definition Qmin_b (x y : Q) : Q := if Qle_bool x y then x else y.
Definition Qmax_b (x y : Q) : Q := if Qle_bool x y then y else x.

Definition np_min (a : list Q) : exc Q Q :=
  match a with
  | [] => Raise ValueError
  | x :: a' => Ok (foldl Qmin_b x a')
  end.

Definition np_max (a : list Q) : exc Q Q :=
  match a with
  | [] => Raise ValueError
  | x :: a' => Ok (foldl Qmax_b x a')
  end.

(** [np.linspace(start, stop, num)] with the default [endpoint=True]:
    [num] samples [start + i * step] with [step = (stop - start) / (num - 1)],
    the last one set to [stop]; a single sample is [start]. *)
Definition np_linspace (start stop : Q) (num : nat) : list Q :=
  match num with
  | O => []
  | S O => [start]
  | S (S _ as div) =>
      let step := ((stop - start) / inject_Z (Z.of_nat div))%Q in
      map (λ i, Qred (inject_Z (Z.of_nat i) * step + start)%Q) (seq 0 div) ++ [stop]
  end.

(** [np.interp(x, xp, fp)] at one point: the piecewise linear interpolant
    through the samples [(xp, fp)], constant to the left of the first sample
    and to the right of the last one. NumPy requires [xp] to be increasing
    and does not check it. The scan below looks for the first sample beyond
    [x]; it is NumPy's value on a strictly increasing [xp]. On an [xp] with
    a repeated or a decreasing time NumPy returns what its binary search
    happens to find, which the scan does not reproduce: every property below
    that speaks of an interpolated value assumes a strictly increasing
    index, or compares a series with itself. *)
Fixpoint interp_scan (x x0 f0 : Q) (pts : list (Q * Q)) : Q :=
  match pts with
  | [] => f0
  | (x1, f1) :: pts' =>
      if Qle_bool x1 x then interp_scan x x1 f1 pts'
      else if Qeq_bool x x0 then f0
      else Qred ((f1 - f0) / (x1 - x0) * (x - x0) + f0)%Q
  end.

Definition interp_at (pts : list (Q * Q)) (x : Q) : Q :=
  match pts with
  | [] => 0%Q
  | (x0, f0) :: pts' => if Qle_bool x x0 then f0 else interp_scan x x0 f0 pts'
  end.

Definition np_interp (x xp fp : list Q) : exc Q (list Q) :=
  if decide (xp = []) then Raise ValueError
  else if negb (length xp =? length fp)%nat then Raise ValueError
  else Ok (map (interp_at (zip xp fp)) x).

(** [float('{:.8g}'.format(x))]: [x] rounded to 8 significant decimal
    digits, ties to even. *)
Definition pow10 (k : Z) : Q :=
  match k with
  | Zneg p => (1 / inject_Z (10 ^ Zpos p))%Q
  | _ => inject_Z (10 ^ k)
  end.

(** The decimal exponent [e] of a positive [x]: [10^e <= x < 10^(e+1)]. *)
Fixpoint dec_exponent_from (fuel : nat) (x : Q) (e : Z) : Z :=
  match fuel with
  | O => e
  | S fuel' =>
      if Qle_bool 10 x then dec_exponent_from fuel' (x / 10)%Q (e + 1)
      else if Qle_bool 1 x then e
      else dec_exponent_from fuel' (x * 10)%Q (e - 1)
  end.

Definition dec_exponent (x : Q) : Z :=
  dec_exponent_from (Z.to_nat (Z.log2 (Qnum x) + Z.log2 (Zpos (Qden x)) + 2)) x 0.

Definition round_half_even (x : Q) : Z :=
  let f := Qfloor x in
  match ((x - inject_Z f) ?= (1 # 2))%Q with
  | Lt => f
  | Gt => f + 1
  | Eq => if Z.even f then f else f + 1
  end.

Definition round_8g (x : Q) : Q :=
  if Qeq_bool x 0 then 0%Q
  else
    let scale := pow10 (dec_exponent (Qabs x) - 7) in
    Qred (inject_Z (round_half_even (x / scale)) * scale)%Q.

(** ** Series and data frames *)

(** A pandas Series: the index and the data, entry by entry. *)
Record Series : Type := mk_series {
  s_index : list Q;
  s_data : list Q
}.

(** A pandas DataFrame with index entries of type [I]: the name of the
    index, the index, and the columns in their order, each with its label.
    In a frame every column is as long as the index and no label occurs
    twice ([wf_frame]). *)
Record DataFrame (I : Type) : Type := mk_frame {
  index_name : option string;
  index : list I;
  columns : list (string * list Q)
}.

Arguments mk_frame {I} index_name index columns.
Arguments index_name {I} d.
Arguments index {I} d.
Arguments columns {I} d.

Definition column_labels {I} (df : DataFrame I) : list string := (columns df).*1.

Definition wf_frame {I} (df : DataFrame I) : Prop :=
  NoDup (column_labels df) ∧
  Forall (λ c, length c.2 = length (index df)) (columns df).

(** [df[key]] *)
Definition get_column (df : DataFrame Q) (key : string) : exc Q Series :=
  match list_find (λ c, c.1 = key) (columns df) with
  | Some (_, c) => Ok (mk_series (index df) c.2)
  | None => Raise (KeyError key)
  end.

(** [df.loc[key, col]] on a frame indexed by keys *)
Definition loc (df : DataFrame string) (key col : string) : exc Q Q :=
  match list_find (λ k, k = key) (index df) with
  | None => Raise (KeyError key)
  | Some (i, _) =>
      match list_find (λ c, c.1 = col) (columns df) with
      | None => Raise (KeyError col)
      | Some (_, c) =>
          match c.2 !! i with
          | Some v => Ok v
          | None => Raise IndexError
          end
      end
  end.

(** ** [create_test_points] *)

Definition create_test_points (s : Series) (n : nat) : exc Q Series :=
  (* Get data *)
  let data := s_data s in
  let index := s_index s in
  (* Make interpolated index *)
  t_min ← np_min index;
  t_max ← np_max index;
  let t := np_linspace t_min t_max n in
  (* Interpolate data *)
  data_interp ← np_interp t index data;
  (* Use at most 8 significant digits *)
  let data_interp := map round_8g data_interp in
  (* Make Series *)
  Ok (mk_series t data_interp).

(** The default of the parameter [n]. *)
Definition n_default : nat := 500.

(** ** The reference store *)

(** A saved csv file holds the frame that [to_csv] wrote. *)
Inductive file : Type :=
| TimeseriesCsv (df : DataFrame Q)
| ValuesCsv (df : DataFrame string).

Definition file_system : Type := gmap string file.

(** Code that reads and writes a state [W] and may raise. *)
Definition io (W X : Type) : Type := W → W * exc Q X.

Definition io_ret {W X} (x : X) : io W X := λ w, (w, Ok x).

Definition io_bind {W X Y} (f : X → io W Y) (m : io W X) : io W Y :=
  λ w, match m w with
       | (w', Ok x) => f x w'
       | (w', Raise e) => (w', Raise e)
       end.

#[global] Instance io_mret {W} : MRet (io W) := @io_ret W.
#[global] Instance io_mbind {W} : MBind (io W) := @io_bind W.

Definition raise {W X} (e : exception Q) : io W X := λ w, (w, Raise e).
Definition lift_exc {W X} (r : exc Q X) : io W X := λ w, (w, r).

(** [for x in l: body x] *)
Fixpoint for_each {W I} (l : list I) (body : I → io W unit) : io W unit :=
  match l with
  | [] => mret tt
  | i :: l' => body i ≫= λ _, for_each l' body
  end.

(** Code that leaves the state as it found it. *)
Definition keeps_state {W X} (m : io W X) : Prop := ∀ w, (m w).1 = w.

(** The [assert] statement and [unittest]'s [assertTrue]. *)
Definition py_assert {W} (cond : bool) : io W unit :=
  if cond then mret tt else raise (AssertionError PyNone).

Definition assertTrue {W} (cond : bool) (msg : pyval Q) : io W unit :=
  if cond then mret tt else raise (AssertionError msg).

Definition path_exists (path : string) : io file_system bool :=
  λ fs, (fs, Ok (bool_decide (is_Some (fs !! path)))).

(** [pd.read_csv(path, index_col=name)] *)
Definition read_timeseries_csv (path name : string) : io file_system (DataFrame Q) :=
  λ fs, match fs !! path with
        | Some (TimeseriesCsv df) =>
            if bool_decide (index_name df = Some name) then (fs, Ok df)
            else (fs, Raise ValueError)
        | _ => (fs, Raise ValueError)
        end.

Definition read_values_csv (path name : string) : io file_system (DataFrame string) :=
  λ fs, match fs !! path with
        | Some (ValuesCsv df) =>
            if bool_decide (index_name df = Some name) then (fs, Ok df)
            else (fs, Raise ValueError)
        | _ => (fs, Raise ValueError)
        end.

(** [df.to_csv(path)] *)
Definition to_csv (f : file) (path : string) : io file_system unit :=
  λ fs, (<[path:=f]> fs, Ok tt).

Definition in_list (key : string) (l : list string) : bool :=
  bool_decide (key ∈ l).

Definition compare_ref_timeseries_df (df : DataFrame Q) (ref_filepath : string)
  : io file_system unit :=
  (* Check time is index *)
  py_assert (bool_decide (index_name df = Some "time")) ≫= λ _,
  (* Perform test *)
  path_exists ref_filepath ≫= λ ex,
  if ex : bool then
    (* If reference exists, check it *)
    df_ref ← read_timeseries_csv ref_filepath "time";
    (* Check all keys in reference are in test *)
    for_each (column_labels df_ref) (λ key,
      assertTrue (in_list key (column_labels df))
        (PyFormat "Reference key {0} not in test data." [PyStr key])) ≫= λ _,
    (* Check all keys in test are in reference *)
    for_each (column_labels df) (λ key,
      assertTrue (in_list key (column_labels df_ref))
        (PyFormat "Test key {0} not in reference data." [PyStr key])) ≫= λ _,
    (* Check trajectories *)
    for_each (column_labels df) (λ key,
      s_test ← lift_exc (get_column df key ≫= λ s, create_test_points s n_default);
      s_ref ← lift_exc (get_column df_ref key ≫= λ s, create_test_points s n_default);
      results ← lift_exc (check_trajectory (s_data s_test) (s_data s_ref));
      assertTrue (Pass results)
        (PyFormat "{0} Key is {1}." [Message results; PyStr key]))
  else
    (* Otherwise, save as reference *)
    to_csv (TimeseriesCsv df) ref_filepath.

Definition compare_ref_values_df (df : DataFrame string) (ref_filepath : string)
  : io file_system unit :=
  (* Check keys is index *)
  py_assert (bool_decide (index_name df = Some "keys")) ≫= λ _,
  py_assert (bool_decide (column_labels df = ["value"])) ≫= λ _,
  (* Perform test *)
  path_exists ref_filepath ≫= λ ex,
  if ex : bool then
    (* If reference exists, check it *)
    df_ref ← read_values_csv ref_filepath "keys";
    for_each (index df) (λ key,
      v_test ← lift_exc (loc df key "value");
      v_ref ← lift_exc (loc df_ref key "value");
      results ← lift_exc (check_trajectory [v_test] [v_ref]);
      assertTrue (Pass results)
        (PyFormat "{0} Key is {1}." [Message results; PyStr key]))
  else
    (* Otherwise, save as reference *)
    to_csv (ValuesCsv df) ref_filepath.

(** The verdict on one column: both series resampled, then compared. *)
Definition column_verdict (df df_ref : DataFrame Q) (key : string) : exc Q (result Q) :=
  s_test ← (get_column df key ≫= λ s, create_test_points s n_default);
  s_ref ← (get_column df_ref key ≫= λ s, create_test_points s n_default);
  check_trajectory (s_data s_test) (s_data s_ref).


(** The check of one key of a values frame against the reference. *)
Definition values_check (df df_ref : DataFrame string) (key : string) : exc Q unit :=
  v_test ← loc df key "value";
  v_ref ← loc df_ref key "value";
  results ← check_trajectory [v_test] [v_ref];
  if Pass results then Ok tt
  else Raise (AssertionError
                (PyFormat "{0} Key is {1}." [Message results; PyStr key])).

(** The outcome of checks performed in order, up to the first that raises. *)
Fixpoint all_ok {I} (check : I → exc Q unit) (l : list I) : exc Q unit :=
  match l with
  | [] => Ok tt
  | k :: l' => check k ≫= λ _, all_ok check l'
  end.

(** ** The remote test case *)

Record Scenario : Type := mk_scenario {
  electricity_price : option string;
  time_period : option string
}.

Inductive lifecycle_phase : Type := Uninitialized | Initialized.

Record SessionState : Type := mk_session {
  communication_step : Q;
  current_time : option Q;
  scenario : Scenario;
  phase : lifecycle_phase
}.

(** The simulation behind the API, which the testing utilities treat as
    opaque: the point names, whether the simulated horizon is exhausted,
    the recorded samples of a point and the KPIs, each as a function of the
    session. *)
Record Simulation : Type := mk_simulation {
  sim_measurements : list string;
  sim_inputs : list string;
  sim_exhausted : SessionState → bool;
  sim_samples : SessionState → string → list (Q * Q);
  sim_kpi : SessionState → list (string * Q)
}.

Record world : Type := mk_world {
  files : file_system;
  session : SessionState
}.

Definition with_files {X} (m : io file_system X) : io world X :=
  λ w, let '(fs, r) := m (files w) in (mk_world fs (session w), r).

(** Code that leaves every file that exists as it is. *)
Definition keeps_files {X} (m : io world X) : Prop :=
  ∀ w p f, files w !! p = Some f → files (m w).1 !! p = Some f.

Definition get_session : io world SessionState := λ w, (w, Ok (session w)).
Definition put_session (s : SessionState) : io world unit :=
  λ w, (mk_world (files w) s, Ok tt).

(** Modelled from the spec: PUT /scenario, the remote test case of this
    repository, which is not among the sources. The fields present in the
    request replace the session's; what is set is what is subsequently
    got, and the clock is not reset. *)
Definition put_scenario (price period : option string) : io world unit :=
  s ← get_session;
  let sc := scenario s in
  put_session
    (mk_session (communication_step s) (current_time s)
       (mk_scenario
          (match price with Some _ => price | None => electricity_price sc end)
          (match period with Some _ => period | None => time_period sc end))
       (phase s)).

(** Modelled from the spec: PUT /initialize. The session becomes
    initialized, the clock is reset to [start_time] and the scenario state
    is discarded. *)
Definition put_initialize (start_time warmup_period : Q) : io world unit :=
  s ← get_session;
  put_session
    (mk_session (communication_step s) (Some start_time)
       (mk_scenario None None) Initialized).

(** Modelled from the spec: GET /step. *)
Definition get_step : io world Q :=
  s ← get_session; mret (communication_step s).

(** Modelled from the spec: POST /advance without overrides. Valid only in
    an initialized session, otherwise a transport-level failure; it moves
    the clock by one communication step and answers with a snapshot
    ([true]), or with the empty, falsy answer ([false]) once the horizon is
    exhausted. *)
Definition post_advance (remote : Simulation) : io world bool :=
  s ← get_session;
  match phase s with
  | Uninitialized => raise HTTPError
  | Initialized =>
      if sim_exhausted remote s then mret false
      else
        put_session
          (mk_session (communication_step s)
             ((λ t, Qred (t + communication_step s)) <$> current_time s)
             (scenario s) (phase s)) ≫= λ _,
        mret true
  end.

(** A bound of a results window: [-np.inf], a number, or [np.inf]. *)
Inductive bound : Type := NegInf | Finite (t : Q) | PosInf.

Definition above (lo : bound) (t : Q) : bool :=
  match lo with
  | NegInf => true
  | Finite l => Qle_bool l t
  | PosInf => false
  end.

Definition below (hi : bound) (t : Q) : bool :=
  match hi with
  | NegInf => false
  | Finite h => Qle_bool t h
  | PosInf => true
  end.

(** Modelled from the spec: PUT /results, the samples of one point whose
    times overlap the window. *)
Definition put_results (remote : Simulation) (point : string) (start final : bound)
  : io world (list (Q * Q)) :=
  s ← get_session;
  mret (filter (λ p, above start p.1 && below final p.1 = true) (sim_samples remote s point)).

(** Modelled from the spec: GET /kpi, GET /measurements and GET /inputs. *)
Definition get_kpi (remote : Simulation) : io world (list (string * Q)) :=
  s ← get_session; mret (sim_kpi remote s).

Definition get_measurements (remote : Simulation) : io world (list string) :=
  mret (sim_measurements remote).

Definition get_inputs (remote : Simulation) : io world (list string) :=
  mret (sim_inputs remote).

(** ** Results as data frames *)

(** [pd.concat((df, new), axis=1)] for the frames [results_to_df] builds:
    the first frame is empty, and every later one has the index of the
    frame it is joined to (the answers cover one window of one clock), so
    the join appends the column. *)
Definition pd_concat_axis1 (df new : DataFrame Q) : DataFrame Q :=
  match columns df, index df with
  | [], [] => mk_frame (index_name df) (index new) (columns new)
  | _, _ => mk_frame (index_name df) (index df) (columns df ++ columns new)
  end.

Fixpoint results_to_df_loop (remote : Simulation) (points : list string)
    (start_time final_time : bound) (df : DataFrame Q) : io world (DataFrame Q) :=
  match points with
  | [] => mret df
  | point :: points' =>
      res ← put_results remote point start_time final_time;
      results_to_df_loop remote points' start_time final_time
        (pd_concat_axis1 df (mk_frame None res.*1 [(point, res.*2)]))
  end.

Definition results_to_df (remote : Simulation) (points : list string)
    (start_time final_time : bound) : io world (DataFrame Q) :=
  df ← results_to_df_loop remote points start_time final_time (mk_frame None [] []);
  mret (mk_frame (Some "time") (index df) (columns df)).

Definition get_all_points (remote : Simulation) : io world (list string) :=
  measurements ← get_measurements remote;
  inputs ← get_inputs remote;
  mret (measurements ++ inputs).

(** [pd.DataFrame.from_dict(res_kpi, orient='index', columns=['value'])]
    with the index named [keys]. *)
Definition kpi_frame (res_kpi : list (string * Q)) : DataFrame string :=
  mk_frame (Some "keys") res_kpi.*1 [("value", res_kpi.*2)].

(** ** The scenario runners *)

(** The attributes of the test class that the runners read. *)
Record TestClass : Type := mk_test_class {
  name : string;
  points_check : list string;
  root_path : string
}.

Definition reference_path (self : TestClass) (file_name : string) : string :=
  root_path self +:+ "/testing/references/" +:+ name self +:+ "/" +:+ file_name.

Definition price_scenarios : list string := ["constant"; "dynamic"; "highly_dynamic"].

(** The body of [for price_scenario in ['constant', 'dynamic',
    'highly_dynamic']], the same in both runners; [label] is the time period
    or the season. *)
Definition check_kpis (remote : Simulation) (self : TestClass) (label : string)
    (price_scenario : string) : io world unit :=
  (* Set scenario *)
  put_scenario (Some price_scenario) None ≫= λ _,
  (* Report kpis *)
  res_kpi ← get_kpi remote;
  (* Check kpis *)
  let df := kpi_frame res_kpi in
  let ref_filepath :=
    reference_path self ("kpis_" +:+ label +:+ "_" +:+ price_scenario +:+ ".csv") in
  with_files (compare_ref_values_df df ref_filepath).

(** [y = 1; while y: y = advance()], with [fuel] bounding the number of
    requests; [None] when the bound is reached before the remote answers
    with the falsy value. *)
Fixpoint simulation_loop (remote : Simulation) (fuel : nat) (w : world)
  : option (world * exc Q unit) :=
  match fuel with
  | O => None
  | S fuel' =>
      match post_advance remote w with
      | (w', Ok y) => if y then simulation_loop remote fuel' w' else Some (w', Ok tt)
      | (w', Raise e) => Some (w', Raise e)
      end
  end.

Definition run_time_period (remote : Simulation) (self : TestClass)
    (time_period : string) (fuel : nat) (w : world) : option (world * exc Q unit) :=
  (* Set time period scenario *)
  let '(w, _) := put_scenario None (Some time_period) w in
  (* Simulation Loop *)
  match simulation_loop remote fuel w with
  | None => None
  | Some (w, Raise e) => Some (w, Raise e)
  | Some (w, Ok _) =>
      Some
        ((* Check results *)
         (df ← results_to_df remote (points_check self) NegInf PosInf;
          with_files (compare_ref_timeseries_df df
            (reference_path self ("results_" +:+ time_period +:+ ".csv"))) ≫= λ _,
          (* For each price scenario *)
          for_each price_scenarios (check_kpis remote self time_period) ≫= λ _,
          put_scenario (Some "constant") None) w)
  end.

(** [int(x)]: truncation towards zero. *)
Definition py_int (x : Q) : Z :=
  if Qle_bool 0 x then Qfloor x else Qceiling x.

Definition season_start (season : string) : exc Q Q :=
  if bool_decide (season = "winter") then Ok (inject_Z (1 * 24 * 3600))
  else if bool_decide (season = "summer") then Ok (inject_Z (248 * 24 * 3600))
  else if bool_decide (season = "shoulder") then Ok (inject_Z (118 * 24 * 3600))
  else Raise ValueError.

Definition run_season (remote : Simulation) (self : TestClass) (season : string)
  : io world unit :=
  start_time ← lift_exc (season_start season);
  let length := inject_Z (48 * 3600) in
  (* Initialize test case *)
  put_initialize start_time 0 ≫= λ _,
  (* Get default simulation step *)
  step_def ← get_step;
  (* Simulation Loop *)
  n ← lift_exc (if Qeq_bool step_def 0 then Raise ZeroDivisionError
                else Ok (Z.to_nat (py_int (length / step_def))));
  for_each (seq 0 n) (λ _, post_advance remote ≫= λ _, mret tt) ≫= λ _,
  put_scenario (Some "constant") None ≫= λ _,
  (* Check results *)
  points ← get_all_points remote;
  df ← results_to_df remote points (Finite start_time) (Finite (Qred (start_time + length)));
  with_files (compare_ref_timeseries_df df
    (reference_path self ("results_" +:+ season +:+ ".csv"))) ≫= λ _,
  (* For each price scenario *)
  for_each price_scenarios (check_kpis remote self season).

(** ** [clean_up] *)

(** The directory at [dir_path]: its entries by name, each a regular file or
    a directory of its own. *)
Inductive entry_kind : Type := RegularFile | Folder.

Definition directory : Type := gmap string entry_kind.

Inductive os_error : Type :=
| IsADirectoryError (path : string)
| FileNotFoundError (path : string).

(** [s.endswith(suffix)]: some tail of [s] is [suffix]. *)
Fixpoint endswith (s suffix : string) : bool :=
  String.eqb s suffix ||
  match s with
  | EmptyString => false
  | String _ s' => endswith s' suffix
  end.

(** [os.listdir(dir_path)]: the names of the entries, in arbitrary order. *)
Definition os_listdir (d : directory) : list string := (map_to_list d).*1.

(** [os.remove(path)]: removes a file; a directory or a missing path is an
    error. *)
Definition os_remove (path : string) (d : directory) : directory * option os_error :=
  match d !! path with
  | Some RegularFile => (delete path d, None)
  | Some Folder => (d, Some (IsADirectoryError path))
  | None => (d, Some (FileNotFoundError path))
  end.

(** The condition of the [if] in the loop of [clean_up]. *)
Definition removable (f : string) : bool :=
  endswith f ".fmu" || endswith f ".mo" || endswith f ".txt" || endswith f ".mat"
  || endswith f ".json".

Fixpoint clean_up_loop (files : list string) (d : directory)
  : directory * option os_error :=
  match files with
  | [] => (d, None)
  | f :: files' =>
      if removable f then
        match os_remove f d with
        | (d', None) => clean_up_loop files' d'
        | (d', Some e) => (d', Some e)
        end
      else clean_up_loop files' d
  end.

Definition clean_up (d : directory) : directory * option os_error :=
  let files := os_listdir d in
  clean_up_loop files d.

(** ** Example data *)

(** A frame with a column and no rows. *)
Definition empty_rows_frame : DataFrame Q := mk_frame (Some "time") [] [("a", [])].

(** Binary64 literals. *)
Definition b64 (m : Z) (k : nat) : binary64 := num_dec m k.

(** A test frame and two references with the same columns: in [ref_ab] both
    columns are off by more than the tolerance, in [ref_xy] two further
    columns are present. *)
Definition test_ab : DataFrame Q :=
  mk_frame (Some "time") [0; 1]%Q [("a", [1; 1]%Q); ("b", [3; 3]%Q)].



(** A KPI table and a deployed test case with two recorded points. *)
Definition kpis_a : DataFrame string := mk_frame (Some "keys") ["a"] [("value", [1%Q])].

Definition example_remote : Simulation :=
  mk_simulation ["y"] ["u"]
    (λ s, match current_time s with
          | Some t => Qle_bool (inject_Z 200000) t
          | None => true
          end)
    (λ s p, [(86400, 1); (172800, 2); (259200, 3)]%Q)
    (λ s, [("cost", match electricity_price (scenario s) with
                    | Some "constant" => 1
                    | Some "dynamic" => 2
                    | _ => 3
                    end)]%Q).

Definition example_self : TestClass := mk_test_class "testcase1" ["y"] "/boptest".

Definition example_world : world :=
  mk_world ∅ (mk_session 3600 None (mk_scenario None None) Uninitialized).

(** A session at the end of its horizon with a file of notes, a session
    whose default step is zero, and a session whose saved KPIs for the
    winter under the constant price are out of date. *)
Definition finished_world : world :=
  mk_world {["notes.csv" := ValuesCsv kpis_a]}
    (mk_session 3600 (Some 300000%Q) (mk_scenario None None) Initialized).

Definition zero_step_world : world :=
  mk_world ∅ (mk_session 0 None (mk_scenario None None) Uninitialized).

Definition stale_kpis_world : world :=
  mk_world
    {[reference_path example_self "kpis_winter_constant.csv" :=
        ValuesCsv (mk_frame (Some "keys") ["cost"] [("value", [5%Q])])]}
    (session example_world).

(** * Properties *)

(** ** The comparison loop *)

Lemma for_loop_snoc {A I S} (body : I → S → exc A S) l i s :
  for_loop body (l ++ [i]) s = (s' ← for_loop body l s; body i s').
Proof.
  revert s. induction l as [|j l IH]; intros s; simpl.
  - unfold mbind, exc_mbind, exc_bind. by destruct (body i s).
  - unfold mbind, exc_mbind, exc_bind in *. destruct (body j s); [apply IH | done].
Qed.

Lemma get_item_lookup {A X} (a : list X) i x :
  a !! i = Some x → get_item (A:=A) a i = Ok x.
Proof. unfold get_item. by intros ->. Qed.

Lemma set_item_lt {A X} (a : list X) i v :
  (i < length a)%nat → set_item (A:=A) a i v = Ok (<[i:=v]> a).
Proof. unfold set_item. intros. by rewrite decide_True. Qed.

Section CheckTrajectoryProps.
Context {A : Type} `{PyNumber A}.

Lemma argmax_scan_lt mp i_max i (l : list A) :
  (i_max < i)%nat → (argmax_scan mp i_max i l < i + length l)%nat.
Proof.
  revert mp i_max i. induction l as [|x l IH]; intros mp i_max i Hi; simpl.
  - lia.
  - destruct (num_leb x mp).
    + specialize (IH mp i_max (S i)). lia.
    + destruct (num_leb x x).
      * specialize (IH x i (S i)). lia.
      * lia.
Qed.

Lemma np_argmax_lt (l : list A) i :
  np_argmax l = Ok i → (i < length l)%nat.
Proof.
  destruct l as [|x l]; simpl; [done|].
  intros [= <-]. destruct (num_leb x x); [|lia].
  pose proof (argmax_scan_lt x 0 1 l). lia.
Qed.

Lemma filled_length k n (v : list A) :
  length v = n → (k ≤ n)%nat → length (filled k n v) = n.
Proof.
  intros Hv Hk. unfold filled.
  rewrite length_app, length_take, length_replicate. lia.
Qed.

Lemma filled_insert k n (v : list A) x :
  v !! k = Some x → length v = n →
  <[k:=x]> (filled k n v) = filled (S k) n v.
Proof.
  intros Hx Hv. unfold filled.
  assert (k < n)%nat as Hk by (apply lookup_lt_Some in Hx; lia).
  rewrite insert_app_r_alt by (rewrite length_take; lia).
  rewrite length_take, Nat.min_l, Nat.sub_diag by lia.
  replace (n - k)%nat with (S (n - S k)) by lia. simpl.
  rewrite (take_S_r _ _ _ Hx), <- app_assoc. done.
Qed.

Lemma filled_all n (v : list A) : length v = n → filled n n v = v.
Proof.
  intros Hv. unfold filled. rewrite Nat.sub_diag. simpl.
  rewrite app_nil_r. apply take_ge. lia.
Qed.

Lemma check_body_step (y_test y_ref : list A) i st yt yr :
  y_test !! i = Some yt → y_ref !! i = Some yr →
  (i < length (err_abs st))%nat → (i < length (err_rel st))%nat →
  (i < length (err_fun st))%nat →
  check_body y_test y_ref i st =
    (r ← assess y_test y_ref (<[i:=combined yt yr]> (err_fun st)) (res st);
     Ok (mk_loop_state (<[i:=abs_err yt yr]> (err_abs st))
                       (<[i:=rel_err yt yr]> (err_rel st))
                       (<[i:=combined yt yr]> (err_fun st)) r)).
Proof.
  intros Hyt Hyr Ha Hr Hf. unfold check_body, assess.
  rewrite (get_item_lookup _ _ _ Hyt), !(get_item_lookup _ _ _ Hyr).
  cbn [mbind exc_mbind exc_bind].
  rewrite (set_item_lt (err_abs st)) by done.
  cbn [mbind exc_mbind exc_bind].
  rewrite (get_item_lookup (<[i:=_]> (err_abs st)) i _ (list_lookup_insert_eq _ _ _ Ha)).
  cbn [mbind exc_mbind exc_bind].
  assert ((if num_gtb (num_abs yr) (num_mul (num_dec 10 0) tol)
           then set_item (A:=A) (err_rel st) i (num_div (num_abs (num_sub yt yr)) (num_abs yr))
           else set_item (err_rel st) i (num_dec 0 0))
          = Ok (<[i:=rel_err yt yr]> (err_rel st))) as ->.
  { unfold rel_err, abs_err, zero.
    destruct (num_gtb _ _); by rewrite set_item_lt. }
  cbn [mbind exc_mbind exc_bind].
  rewrite (get_item_lookup (<[i:=_]> (err_rel st)) i _ (list_lookup_insert_eq _ _ _ Hr)).
  cbn [mbind exc_mbind exc_bind].
  rewrite (set_item_lt (err_fun st)) by done.
  cbn [mbind exc_mbind exc_bind].
  fold (abs_err yt yr). fold (combined yt yr).
  destruct (py_max _) as [m|e]; cbn [mbind exc_mbind exc_bind]; [|done].
  destruct (np_argmax _) as [j|e]; cbn [mbind exc_mbind exc_bind]; [|done].
  destruct (num_gtb m tol); [|done].
  destruct (get_item y_test j); cbn [mbind exc_mbind exc_bind]; [|done].
  destruct (get_item y_ref j); cbn [mbind exc_mbind exc_bind]; done.
Qed.
End CheckTrajectoryProps.

Section CheckTrajectoryLoop.
Context {A : Type} `{PyNumberLaws A}.

Lemma foldl_max_zeros (c : A) k :
  foldl max_step c (replicate k zero) = c ∨
  foldl max_step c (replicate k zero) = zero.
Proof.
  revert c. induction k as [|k IH]; intros c; simpl; [by left|].
  destruct (num_gtb zero c) eqn:Hz.
  - right. unfold max_step at 2. rewrite Hz. by destruct (IH zero).
  - unfold max_step at 2 4. rewrite Hz. apply IH.
Qed.

Lemma foldl_max_gt (c : A) l :
  num_gtb c tol = true → num_gtb (foldl max_step c l) tol = true.
Proof.
  revert c. induction l as [|x l IH]; intros c Hc; simpl; [done|].
  apply IH. unfold max_step. destruct (num_gtb x c) eqn:Hx; [|done].
  by apply (gtb_trans_tol c).
Qed.

(** Filling in further entries never takes the maximum back under the
    tolerance. *)
Lemma py_max_filled_mono (l1 l2 : list A) j j' m m' :
  l1 ≠ [] →
  py_max (l1 ++ replicate j zero) = Ok m → num_gtb m tol = true →
  py_max (l1 ++ l2 ++ replicate j' zero) = Ok m' →
  num_gtb m' tol = true.
Proof.
  destruct l1 as [|x l1]; [done|]. intros _. simpl.
  rewrite !foldl_app. intros [= <-] Hm [= <-].
  destruct (foldl_max_zeros (foldl max_step x l1) j) as [E|E];
    rewrite E in Hm.
  - by do 2 apply foldl_max_gt.
  - by rewrite gtb_zero_tol in Hm.
Qed.

Lemma assess_cases (y_test y_ref errs : list A) r :
  length y_test = length errs → length y_ref = length errs → errs ≠ [] →
  ∃ m j yt yr,
    py_max errs = Ok m ∧ np_argmax errs = Ok j ∧
    y_test !! j = Some yt ∧ y_ref !! j = Some yr ∧
    assess y_test y_ref errs r =
      Ok (if num_gtb m tol then fail_result m j yt yr else r).
Proof.
  intros Ht Hr Hne. destruct errs as [|x errs]; [done|].
  destruct (py_max (x :: errs)) as [m|] eqn:Hm; [|done].
  destruct (np_argmax (x :: errs)) as [j|] eqn:Hj; [|done].
  pose proof (np_argmax_lt _ _ Hj) as Hlt.
  destruct (lookup_lt_is_Some_2 y_test j) as [yt Hyt]; [lia|].
  destruct (lookup_lt_is_Some_2 y_ref j) as [yr Hyr]; [lia|].
  exists m, j, yt, yr. repeat split; try done.
  unfold assess. rewrite Hm, Hj. cbn [mbind exc_mbind exc_bind].
  rewrite (get_item_lookup _ _ _ Hyt), (get_item_lookup _ _ _ Hyr).
  by destruct (num_gtb m tol).
Qed.

Lemma loop_invariant (y_test y_ref : list A) n k :
  length y_test = n → length y_ref = n → (k ≤ n)%nat →
  ∃ r,
    for_loop (check_body y_test y_ref) (seq 0 k) (initial_state n) =
      Ok (mk_loop_state (filled k n (zip_with abs_err y_test y_ref))
                        (filled k n (zip_with rel_err y_test y_ref))
                        (filled k n (combined_errors y_test y_ref)) r) ∧
    (k = 0%nat → r = pass_result) ∧
    (k ≠ 0%nat →
     assess y_test y_ref (filled k n (combined_errors y_test y_ref)) pass_result = Ok r).
Proof.
  intros Ht Hr. induction k as [|k IH]; intros Hk.
  - exists pass_result. split; [|done].
    simpl. unfold filled, initial_state. simpl. by rewrite Nat.sub_0_r.
  - destruct IH as (r & Hloop & Hr0 & Hrk); [lia|].
    rewrite seq_S, for_loop_snoc, Hloop. simpl.
    cbn [mbind exc_mbind exc_bind].
    destruct (lookup_lt_is_Some_2 y_test k) as [yt Hyt]; [lia|].
    destruct (lookup_lt_is_Some_2 y_ref k) as [yr Hyr]; [lia|].
    assert (length (zip_with abs_err y_test y_ref) = n) as La
      by (rewrite length_zip_with; lia).
    assert (length (zip_with rel_err y_test y_ref) = n) as Lr
      by (rewrite length_zip_with; lia).
    assert (length (combined_errors y_test y_ref) = n) as Lc
      by (unfold combined_errors; rewrite length_zip_with; lia).
    rewrite (check_body_step _ _ _ _ yt yr Hyt Hyr); simpl;
      [|rewrite filled_length; lia..].
    assert (∀ f : A → A → A, zip_with f y_test y_ref !! k = Some (f yt yr)) as Hz.
    { intros f. rewrite lookup_zip_with, Hyt. simpl. by rewrite Hyr. }
    rewrite (filled_insert k n _ _ (Hz abs_err) La),
      (filled_insert k n _ _ (Hz rel_err) Lr),
      (filled_insert k n _ _ (Hz combined) Lc).
    unfold combined_errors in *.
    set (errs := zip_with combined y_test y_ref) in *.
    assert (filled (S k) n errs ≠ []) as Hne.
    { intros E. apply (f_equal length) in E.
      rewrite filled_length in E by lia. simpl in E. lia. }
    destruct (assess_cases y_test y_ref (filled (S k) n errs) r)
      as (m & j & yt' & yr' & Hm & Hj & Hyt' & Hyr' & Has);
      [rewrite filled_length; lia..|done|].
    destruct (assess_cases y_test y_ref (filled (S k) n errs) pass_result)
      as (m2 & j2 & yt2 & yr2 & Hm2 & Hj2 & Hyt2 & Hyr2 & Has2);
      [rewrite filled_length; lia..|done|].
    rewrite Has. cbn [mbind exc_mbind exc_bind].
    eexists. split; [done|]. split; [done|]. intros _.
    rewrite Has2. rewrite Hm in Hm2. rewrite Hj in Hj2.
    injection Hm2 as <-. injection Hj2 as <-.
    rewrite Hyt' in Hyt2. rewrite Hyr' in Hyr2.
    injection Hyt2 as <-. injection Hyr2 as <-.
    destruct (num_gtb m tol) eqn:Hgt; [done|]. f_equal.
    destruct (decide (k = 0%nat)) as [->|Hk0]; [by rewrite Hr0|].
    specialize (Hrk Hk0).
    assert (filled k n errs ≠ []) as Hne'.
    { intros E. apply (f_equal length) in E.
      rewrite filled_length in E by lia. simpl in E. lia. }
    destruct (assess_cases y_test y_ref (filled k n errs) pass_result)
      as (m1 & j1 & yt1 & yr1 & Hm1 & Hj1 & Hyt1 & Hyr1 & Has1);
      [rewrite filled_length; lia..|done|].
    rewrite Has1 in Hrk. injection Hrk as <-.
    destruct (num_gtb m1 tol) eqn:Hgt1; [|done].
    pose proof (Hz combined) as Hek. fold errs in Hek.
    assert (num_gtb m tol = true); [|congruence].
    apply (py_max_filled_mono (take k errs) [combined yt yr] (n - k) (n - S k) m1 m).
    + intros E. apply (f_equal length) in E. rewrite length_take in E. simpl in E. lia.
    + exact Hm1.
    + exact Hgt1.
    + unfold filled in Hm. by rewrite (take_S_r _ _ _ Hek), <- app_assoc in Hm.
Qed.

(** The loop that reassesses the partially filled error array at every
    index returns what a single assessment of the complete array returns. *)
Theorem check_trajectory_once (y_test y_ref : list A) :
  check_trajectory y_test y_ref = check_once y_test y_ref.
Proof.
  unfold check_trajectory, check_once.
  destruct (length y_test =? length y_ref)%nat eqn:Hlen; simpl; [|done].
  apply Nat.eqb_eq in Hlen.
  destruct (loop_invariant y_test y_ref (length y_ref) (length y_ref))
    as (r & Hloop & Hr0 & Hrk); [done..|].
  unfold initial_state, pass_result in Hloop. rewrite Hloop.
  cbn [mbind exc_mbind exc_bind]. simpl.
  assert (length (combined_errors y_test y_ref) = length y_ref) as Lc
    by (unfold combined_errors; rewrite length_zip_with; lia).
  destruct (combined_errors y_test y_ref) as [|e errs] eqn:E.
  - simpl in Lc. rewrite Hr0; [done|lia].
  - rewrite <- E. rewrite <- Hrk.
    + rewrite filled_all by done. by rewrite E.
    + rewrite <- Lc. done.
Qed.
End CheckTrajectoryLoop.

(** ** The two number systems satisfy the order laws *)

Lemma Q_tol_value : (tol : Q) = (1 # 1000)%Q.
Proof. reflexivity. Qed.

Lemma Q_zero_value : (zero : Q) = 0%Q.
Proof. reflexivity. Qed.

#[global] Instance Q_number_laws : PyNumberLaws Q.
Proof.
  split.
  - reflexivity.
  - intros c x. rewrite Q_tol_value. cbn [num_gtb Q_number].
    rewrite !negb_true_iff, <- !not_true_iff_false, !Qle_bool_iff. lra.
  - intros x. cbn [num_gtb num_leb Q_number]. by intros ->.
Qed.

Lemma binary64_tol_value :
  (tol : binary64) = S754_finite false 4611686018427388 (-62).
Proof. vm_compute. reflexivity. Qed.

Lemma binary64_zero_value : (zero : binary64) = S754_zero false.
Proof. vm_compute. reflexivity. Qed.

Lemma SFltb_finite_pos_trans m e (c x : spec_float) :
  SFltb (S754_finite false m e) c = true → SFltb c x = true →
  SFltb (S754_finite false m e) x = true.
Proof.
  unfold SFltb. intros H1 H2.
  destruct c as [sc|sc| |sc mc e1]; try destruct sc; simpl in H1; try discriminate;
    destruct x as [sx|sx| |sx mx e2]; try destruct sx; simpl in H2 |- *;
    try discriminate; try done.
  revert H1 H2.
  destruct (Z.compare_spec e e1) as [->|?|?]; try discriminate.
  - destruct (Z.compare_spec e1 e2) as [->|?|?]; try discriminate; [|done].
    rewrite !Pos.compare_cont_spec. simpl.
    destruct (Pos.compare_spec m mc) as [->|?|?]; try discriminate.
    destruct (Pos.compare_spec mc mx) as [->|?|?]; try discriminate.
    intros _ _. destruct (Pos.compare_spec m mx) as [->|?|?]; [lia|done|lia].
  - destruct (Z.compare_spec e1 e2) as [->|?|?]; try discriminate.
    + intros _ _. destruct (Z.compare_spec e e2) as [->|?|?]; [lia|done|lia].
    + intros _ _. destruct (Z.compare_spec e e2) as [->|?|?]; [lia|done|lia].
Qed.

Lemma SFleb_finite_pos_not_ltb m e (x : spec_float) :
  SFleb x (S754_finite false m e) = true →
  SFltb (S754_finite false m e) x = false.
Proof.
  unfold SFleb, SFltb.
  destruct x as [sx|sx| |sx mx e2]; try destruct sx; simpl; try done.
  rewrite !Pos.compare_cont_spec. simpl.
  destruct (Z.compare_spec e2 e) as [?|?|?];
    destruct (Z.compare_spec e e2) as [?|?|?]; try done; try lia.
  destruct (Pos.compare_spec mx m) as [?|?|?];
    destruct (Pos.compare_spec m mx) as [?|?|?]; try done; lia.
Qed.

#[global] Instance binary64_number_laws : PyNumberLaws binary64.
Proof.
  split.
  - vm_compute. reflexivity.
  - intros c x. rewrite binary64_tol_value. cbn [num_gtb binary64_number].
    apply SFltb_finite_pos_trans.
  - intros x. rewrite binary64_tol_value. cbn [num_gtb num_leb binary64_number].
    apply SFleb_finite_pos_not_ltb.
Qed.

Section CheckTrajectoryClaims.
Context {A : Type} `{PyNumberLaws A}.

Lemma foldl_max_elem (c : A) l : foldl max_step c l ∈ c :: l.
Proof.
  revert c. induction l as [|x l IH]; intros c; simpl; [by left|].
  pose proof (IH (max_step c x)) as IHx.
  apply elem_of_cons in IHx as [IHx|IHx].
  - rewrite IHx. unfold max_step. destruct (num_gtb x c); [right; left|left].
  - by do 2 right.
Qed.

Lemma py_max_elem (l : list A) m : py_max l = Ok m → m ∈ l.
Proof.
  destruct l as [|x l]; simpl; [done|]. intros [= <-]. apply foldl_max_elem.
Qed.

Lemma combined_errors_length (y_test y_ref : list A) :
  length y_test = length y_ref →
  length (combined_errors y_test y_ref) = length y_ref.
Proof. intros E. unfold combined_errors. rewrite length_zip_with. lia. Qed.

(** A comparison whose entries all stay within the tolerance passes. *)
Lemma check_trajectory_all_within (y_test y_ref : list A) :
  length y_test = length y_ref →
  (∀ e, e ∈ combined_errors y_test y_ref → num_gtb e tol = false) →
  check_trajectory y_test y_ref = Ok pass_result.
Proof.
  intros Hlen Hall. rewrite check_trajectory_once. unfold check_once.
  rewrite Hlen, Nat.eqb_refl. simpl.
  destruct (combined_errors y_test y_ref) as [|e errs] eqn:E; [done|].
  destruct (assess_cases y_test y_ref (e :: errs) pass_result)
    as (m & j & yt & yr & Hm & _ & _ & _ & ->); [| |done|].
  - rewrite <- E, combined_errors_length; done.
  - rewrite <- E, combined_errors_length; done.
  - rewrite (Hall m); [done|]. by apply py_max_elem.
Qed.

(** C5: trajectories of different lengths fail at once, whatever their
    values: [Pass] is false, the message is the sentence "Test and reference
    trajectory not the same length" (in the code with its full stop), and
    [ErrorMax] and [IndexMax] stay [None]. *)
Theorem check_trajectory_length_mismatch (y_test y_ref : list A) :
  length y_test ≠ length y_ref →
  check_trajectory y_test y_ref =
    Ok (mk_result false PyNone PyNone
          (PyStr ("Test and reference trajectory not the same length" +:+ "."))).
Proof.
  intros Hne. unfold check_trajectory.
  apply Nat.eqb_neq in Hne. by rewrite Hne.
Qed.

(** C9: for trajectories of equal length whose maximum combined error is at
    most the tolerance, the result is [Pass = True] with [ErrorMax],
    [IndexMax] and [Message] all [None]. *)
Theorem check_trajectory_pass_fields (y_test y_ref : list A) :
  length y_test = length y_ref →
  (∀ m, py_max (combined_errors y_test y_ref) = Ok m → num_leb m tol = true) →
  check_trajectory y_test y_ref = Ok (mk_result true PyNone PyNone PyNone).
Proof.
  intros Hlen Hmax. rewrite check_trajectory_once. unfold check_once.
  rewrite Hlen, Nat.eqb_refl. simpl.
  destruct (combined_errors y_test y_ref) as [|e errs] eqn:E; [done|].
  destruct (assess_cases y_test y_ref (e :: errs) pass_result)
    as (m & j & yt & yr & Hm & _ & _ & _ & ->); [| |done|].
  - rewrite <- E, combined_errors_length; done.
  - rewrite <- E, combined_errors_length; done.
  - by rewrite (leb_tol_not_gtb m (Hmax m Hm)).
Qed.

(** The verdict on trajectories of equal length: the comparison fails
    exactly when the maximum of the combined errors exceeds the tolerance. *)
Lemma check_trajectory_verdict (y_test y_ref : list A) :
  length y_test = length y_ref → y_ref ≠ [] →
  ∃ err_max i_max yt yr,
    py_max (combined_errors y_test y_ref) = Ok err_max ∧
    np_argmax (combined_errors y_test y_ref) = Ok i_max ∧
    y_test !! i_max = Some yt ∧ y_ref !! i_max = Some yr ∧
    check_trajectory y_test y_ref =
      Ok (if num_gtb err_max tol
          then fail_result err_max i_max yt yr
          else pass_result).
Proof.
  intros Hlen Hne. rewrite check_trajectory_once. unfold check_once.
  rewrite Hlen, Nat.eqb_refl. simpl.
  pose proof (combined_errors_length _ _ Hlen) as Lc.
  destruct (combined_errors y_test y_ref) as [|e errs] eqn:E.
  { destruct y_ref; [done|]. simpl in Lc. lia. }
  destruct (assess_cases y_test y_ref (e :: errs) pass_result)
    as (m & j & yt & yr & Hm & Hj & Hyt & Hyr & Has); [lia|lia|done|].
  exists m, j, yt, yr. by rewrite Has.
Qed.

(** C1: what the code returns on a tolerance failure. When the maximum
    [err_max] of the combined errors [|test - ref| + (|test - ref| / |ref| if
    |ref| > 10 tol else 0)] exceeds the tolerance, [Pass] is false and the
    message carries the maximum, the tolerance, the index and both values at
    that index; but [ErrorMax] and [IndexMax] hold the one-element tuples
    [(err_max,)] and [(i_max,)], not the number and the index that the
    docstring and the claim announce. *)
Theorem check_trajectory_failure_fields (y_test y_ref : list A) (err_max : A) :
  length y_test = length y_ref →
  py_max (combined_errors y_test y_ref) = Ok err_max →
  num_gtb err_max tol = true →
  ∃ i_max yt yr,
    np_argmax (combined_errors y_test y_ref) = Ok i_max ∧
    y_test !! i_max = Some yt ∧ y_ref !! i_max = Some yr ∧
    check_trajectory y_test y_ref =
      Ok (mk_result false
            (PyTuple [PyNum err_max])
            (PyTuple [PyInt (Z.of_nat i_max)])
            (PyFormat tolerance_template
               [PyNum err_max; PyNum tol; PyInt (Z.of_nat i_max);
                PyNum yt; PyNum yr])) ∧
    PyTuple [PyNum err_max] ≠ PyNum err_max ∧
    PyTuple [PyInt (Z.of_nat i_max)] ≠ (PyInt (Z.of_nat i_max) : pyval A).
Proof.
  intros Hlen Hmax Hgt.
  assert (y_ref ≠ []) as Hne.
  { intros ->. destruct y_test; [|done]. done. }
  destruct (check_trajectory_verdict y_test y_ref Hlen Hne)
    as (m & j & yt & yr & Hm & Hj & Hyt & Hyr & Hcheck).
  rewrite Hmax in Hm. injection Hm as <-. rewrite Hgt in Hcheck.
  exists j, yt, yr. repeat split; done.
Qed.
End CheckTrajectoryClaims.

(** *** Comparing a trajectory with itself *)

Lemma binary64_combined_diag (v : binary64) :
  combined v v = (if is_finite v then S754_zero false else S754_nan).
Proof.
  unfold combined, rel_err, abs_err.
  cbn [num_add num_sub num_abs num_div num_gtb binary64_number].
  destruct v as [s|s| |s m e].
  - destruct s; simpl; reflexivity.
  - destruct s; simpl; reflexivity.
  - reflexivity.
  - assert (SFsub prec64 emax64 (S754_finite s m e) (S754_finite s m e) = S754_zero false) as ->.
    { unfold SFsub. rewrite Z.sub_diag. reflexivity. }
    cbn [SFabs is_finite].
    destruct (SFltb _ _); reflexivity.
Qed.

Lemma binary64_combined_diag_within (v : binary64) :
  num_gtb (combined v v) tol = false.
Proof.
  rewrite binary64_combined_diag. destruct (is_finite v); reflexivity.
Qed.

Lemma Q_combined_diag (v : Q) : combined v v = 0%Q.
Proof.
  unfold combined, rel_err, abs_err.
  cbn [num_add num_sub num_abs num_div num_gtb Q_number].
  assert (Qred (v - v) = 0%Q) as ->.
  { change 0%Q with (Qred 0). apply Qred_complete. ring. }
  destruct (negb _); reflexivity.
Qed.

(** A trajectory compared with itself passes, even where it holds an
    infinity or a NaN. *)
Lemma check_trajectory_self_any (x : list binary64) :
  check_trajectory x x = Ok pass_result.
Proof.
  apply check_trajectory_all_within; [done|].
  intros e He. unfold combined_errors in He.
  apply elem_of_lookup_zip_with in He as (i & a & b & -> & Ha & Hb).
  rewrite Ha in Hb. injection Hb as <-. apply binary64_combined_diag_within.
Qed.

(** C6: a trajectory of real numbers compared with itself passes, and the
    maximum combined error that the comparison computes is 0. *)
Theorem check_trajectory_self (x : list binary64) :
  forallb is_finite x = true →
  check_trajectory x x = Ok (mk_result true PyNone PyNone PyNone) ∧
  ∀ err_max, py_max (combined_errors x x) = Ok err_max → err_max = zero.
Proof.
  intros Hfin. split; [apply check_trajectory_self_any|].
  intros m Hm. apply py_max_elem in Hm. unfold combined_errors in Hm.
  apply elem_of_lookup_zip_with in Hm as (i & a & b & -> & Ha & Hb).
  rewrite Ha in Hb. injection Hb as <-.
  rewrite binary64_combined_diag.
  rewrite forallb_forall in Hfin.
  rewrite (Hfin a); [reflexivity|].
  apply list_elem_of_In, list_elem_of_lookup. eauto.
Qed.

(** The same in exact arithmetic. *)
Lemma check_trajectory_self_Q (x : list Q) :
  check_trajectory x x = Ok pass_result ∧
  ∀ err_max, py_max (combined_errors x x) = Ok err_max → err_max = 0%Q.
Proof.
  split.
  - apply check_trajectory_all_within; [done|].
    intros e He. unfold combined_errors in He.
    apply elem_of_lookup_zip_with in He as (i & a & b & -> & Ha & Hb).
    rewrite Ha in Hb. injection Hb as <-. by rewrite Q_combined_diag.
  - intros m Hm. apply py_max_elem in Hm. unfold combined_errors in Hm.
    apply elem_of_lookup_zip_with in Hm as (i & a & b & -> & Ha & Hb).
    rewrite Ha in Hb. injection Hb as <-. apply Q_combined_diag.
Qed.

(** C8: with the tolerance 1e-3, [check_trajectory([1.0 + 0.5e-3], [1.0])]
    passes and [check_trajectory([1.2], [1.0])] fails, in binary64 as in
    exact arithmetic; in exact arithmetic the absolute and the relative
    error are both 5e-4 and the combined error equals the tolerance. *)
Theorem check_trajectory_boundary :
  (* binary64, as the code runs *)
  check_trajectory (A:=binary64) [num_add (num_dec 1 0) (num_dec 5 4)] [num_dec 1 0]
    = Ok (mk_result true PyNone PyNone PyNone) ∧
  (∃ r, check_trajectory (A:=binary64) [num_dec 12 1] [num_dec 1 0] = Ok r ∧ Pass r = false) ∧
  (* exact arithmetic *)
  combined (A:=Q) (num_add (num_dec 1 0) (num_dec 5 4)) (num_dec 1 0) = tol ∧
  abs_err (A:=Q) (num_add (num_dec 1 0) (num_dec 5 4)) (num_dec 1 0) = num_dec 5 4 ∧
  rel_err (A:=Q) (num_add (num_dec 1 0) (num_dec 5 4)) (num_dec 1 0) = num_dec 5 4 ∧
  check_trajectory (A:=Q) [num_add (num_dec 1 0) (num_dec 5 4)] [num_dec 1 0]
    = Ok (mk_result true PyNone PyNone PyNone) ∧
  (∃ r, check_trajectory (A:=Q) [num_dec 12 1] [num_dec 1 0] = Ok r ∧ Pass r = false).
Proof.
  repeat split; try (vm_compute; reflexivity);
    eexists; (split; [vm_compute; reflexivity|reflexivity]).
Qed.

(** ** Sequencing *)

Lemma io_bind_ok {W X Y} (m : io W X) (f : X → io W Y) w w' x :
  m w = (w', Ok x) → (m ≫= f) w = f x w'.
Proof. intros E. unfold mbind, io_mbind, io_bind. by rewrite E. Qed.

Lemma io_bind_raise {W X Y} (m : io W X) (f : X → io W Y) w w' e :
  m w = (w', Raise e) → (m ≫= f) w = (w', Raise e).
Proof. intros E. unfold mbind, io_mbind, io_bind. by rewrite E. Qed.

Lemma for_each_all_ok {W I} (l : list I) (body : I → io W unit) w :
  (∀ k, k ∈ l → body k w = (w, Ok tt)) → for_each l body w = (w, Ok tt).
Proof.
  induction l as [|k l IH]; intros Hall; simpl; [done|].
  rewrite (io_bind_ok _ _ w w tt) by (apply Hall; left).
  apply IH. intros k' Hk'. apply Hall. by right.
Qed.


(** ** [compare_ref_timeseries_df] against an existing reference *)

Lemma column_check_verdict (df df_ref : DataFrame Q) key (fs : file_system) :
  (s_test ← lift_exc (get_column df key ≫= λ s, create_test_points s n_default);
   s_ref ← lift_exc (get_column df_ref key ≫= λ s, create_test_points s n_default);
   results ← lift_exc (check_trajectory (s_data s_test) (s_data s_ref));
   assertTrue (Pass results)
     (PyFormat "{0} Key is {1}." [Message results; PyStr key])) fs =
  match column_verdict df df_ref key with
  | Ok results =>
      (fs, if Pass results then Ok tt
           else Raise (AssertionError
                         (PyFormat "{0} Key is {1}." [Message results; PyStr key])))
  | Raise e => (fs, Raise e)
  end.
Proof.
  unfold column_verdict.
  destruct (get_column df key ≫= _) as [s_test|e] eqn:E1.
  2:{ by rewrite (io_bind_raise _ _ fs fs e). }
  rewrite (io_bind_ok _ _ fs fs s_test) by done.
  cbn [mbind exc_mbind exc_bind].
  destruct (get_column df_ref key ≫= _) as [s_ref|e] eqn:E2.
  2:{ by rewrite (io_bind_raise _ _ fs fs e). }
  rewrite (io_bind_ok _ _ fs fs s_ref) by done.
  cbn [mbind exc_mbind exc_bind].
  destruct (check_trajectory _ _) as [r|e] eqn:E3.
  2:{ by rewrite (io_bind_raise _ _ fs fs e). }
  rewrite (io_bind_ok _ _ fs fs r) by done.
  unfold assertTrue. by destruct (Pass r).
Qed.

Lemma compare_existing_unfold (df df_ref : DataFrame Q) ref_filepath (fs : file_system) :
  index_name df = Some "time" →
  fs !! ref_filepath = Some (TimeseriesCsv df_ref) →
  index_name df_ref = Some "time" →
  compare_ref_timeseries_df df ref_filepath fs =
  (for_each (column_labels df_ref) (λ key,
     assertTrue (in_list key (column_labels df))
       (PyFormat "Reference key {0} not in test data." [PyStr key])) ≫= λ _,
   for_each (column_labels df) (λ key,
     assertTrue (in_list key (column_labels df_ref))
       (PyFormat "Test key {0} not in reference data." [PyStr key])) ≫= λ _,
   for_each (column_labels df) (λ key,
     s_test ← lift_exc (get_column df key ≫= λ s, create_test_points s n_default);
     s_ref ← lift_exc (get_column df_ref key ≫= λ s, create_test_points s n_default);
     results ← lift_exc (check_trajectory (s_data s_test) (s_data s_ref));
     assertTrue (Pass results)
       (PyFormat "{0} Key is {1}." [Message results; PyStr key]))) fs.
Proof.
  intros time_index reference_exists reference_index.
  unfold compare_ref_timeseries_df.
  rewrite (io_bind_ok _ _ fs fs tt)
    by (unfold py_assert; by rewrite bool_decide_eq_true_2).
  rewrite (io_bind_ok _ _ fs fs true).
  2:{ unfold path_exists. rewrite bool_decide_eq_true_2; [done|].
      by rewrite reference_exists. }
  rewrite (io_bind_ok _ _ fs fs df_ref); [done|].
  unfold read_timeseries_csv. rewrite reference_exists.
  by rewrite bool_decide_eq_true_2.
Qed.

Lemma key_checks_pass (l known : list string) template (fs : file_system) :
  l ⊆ known →
  for_each l (λ key, assertTrue (in_list key known)
                       (PyFormat template [PyStr key])) fs = (fs, Ok tt).
Proof.
  intros Hsub. apply for_each_all_ok. intros k Hk.
  unfold assertTrue, in_list. rewrite bool_decide_eq_true_2; [done|]. by apply Hsub.
Qed.


Lemma compare_existing_all_pass (df df_ref : DataFrame Q) ref_filepath
    (fs : file_system) :
  index_name df = Some "time" →
  fs !! ref_filepath = Some (TimeseriesCsv df_ref) →
  index_name df_ref = Some "time" →
  column_labels df_ref ⊆ column_labels df →
  column_labels df ⊆ column_labels df_ref →
  (∀ k, k ∈ column_labels df →
        ∃ r, column_verdict df df_ref k = Ok r ∧ Pass r = true) →
  compare_ref_timeseries_df df ref_filepath fs = (fs, Ok tt).
Proof.
  intros Hname Hex Hname' Href Htest Hpass.
  rewrite (compare_existing_unfold df df_ref) by done.
  rewrite (io_bind_ok _ _ fs fs tt) by (by apply key_checks_pass).
  rewrite (io_bind_ok _ _ fs fs tt) by (by apply key_checks_pass).
  apply for_each_all_ok. intros k Hk. rewrite column_check_verdict.
  destruct (Hpass k Hk) as (r & -> & ->). done.
Qed.


(** ** Baseline creation *)

Lemma np_min_ok (a : list Q) : a ≠ [] → ∃ m, np_min a = Ok m.
Proof. destruct a; [done|]. intros _. by eexists. Qed.

Lemma np_max_ok (a : list Q) : a ≠ [] → ∃ m, np_max a = Ok m.
Proof. destruct a; [done|]. intros _. by eexists. Qed.

Lemma np_interp_ok (x xp fp : list Q) :
  xp ≠ [] → length xp = length fp →
  np_interp x xp fp = Ok (map (interp_at (zip xp fp)) x).
Proof.
  intros Hne Hlen. unfold np_interp.
  rewrite decide_False by done. by rewrite Hlen, Nat.eqb_refl.
Qed.

Lemma create_test_points_ok (s : Series) n :
  s_index s ≠ [] → length (s_index s) = length (s_data s) →
  ∃ t_min t_max,
    np_min (s_index s) = Ok t_min ∧ np_max (s_index s) = Ok t_max ∧
    create_test_points s n =
      Ok (mk_series (np_linspace t_min t_max n)
            (map round_8g
               (map (interp_at (zip (s_index s) (s_data s)))
                  (np_linspace t_min t_max n)))).
Proof.
  intros Hne Hlen.
  destruct (np_min_ok _ Hne) as [t_min Hmin].
  destruct (np_max_ok _ Hne) as [t_max Hmax].
  exists t_min, t_max. repeat split; try done.
  unfold create_test_points. rewrite Hmin, Hmax.
  cbn [mbind exc_mbind exc_bind].
  by rewrite np_interp_ok.
Qed.

Lemma get_column_ok (df : DataFrame Q) key :
  key ∈ column_labels df →
  ∃ c, c ∈ columns df ∧ get_column df key = Ok (mk_series (index df) c.2).
Proof.
  intros Hk. unfold column_labels in Hk.
  apply list_elem_of_fmap in Hk as (c & -> & Hc).
  destruct (list_find_elem_of (λ c', c'.1 = c.1) (columns df) c Hc eq_refl)
    as [[i c'] Hfind].
  exists c'. split.
  - apply list_find_Some in Hfind as (Hi & _ & _).
    apply list_elem_of_lookup. eauto.
  - unfold get_column. by rewrite Hfind.
Qed.

Lemma column_verdict_self (df : DataFrame Q) key :
  wf_frame df → index df ≠ [] → key ∈ column_labels df →
  column_verdict df df key = Ok pass_result.
Proof.
  intros [_ Hlen] Hne Hk.
  destruct (get_column_ok df key Hk) as (c & Hc & Hget).
  rewrite Forall_forall in Hlen. specialize (Hlen c Hc).
  destruct (create_test_points_ok (mk_series (index df) c.2) n_default)
    as (t_min & t_max & _ & _ & Hcreate); [done|done|].
  unfold column_verdict. rewrite Hget. cbn [mbind exc_mbind exc_bind].
  rewrite Hcreate. cbn [mbind exc_mbind exc_bind].
  apply check_trajectory_self_Q.
Qed.

Lemma compare_ref_timeseries_df_absent (df : DataFrame Q) path (fs : file_system) :
  index_name df = Some "time" → fs !! path = None →
  compare_ref_timeseries_df df path fs = (<[path:=TimeseriesCsv df]> fs, Ok tt).
Proof.
  intros Hname Hnone. unfold compare_ref_timeseries_df.
  rewrite (io_bind_ok _ _ fs fs tt)
    by (unfold py_assert; by rewrite bool_decide_eq_true_2).
  rewrite (io_bind_ok _ _ fs fs false); [done|].
  unfold path_exists. rewrite bool_decide_eq_false_2; [done|].
  rewrite Hnone. by intros [? ?].
Qed.

(** C3, as amended: for every time-indexed frame and every path that does
    not exist, [compare_ref_timeseries_df] returns normally and saves the
    frame at the path; and when the frame has distinct column labels,
    columns as long as the index and at least one row (or no column at
    all), a second call with the same frame against the path that now exists
    returns normally as well and leaves the reference as it is. *)
Theorem compare_ref_timeseries_df_baseline (df : DataFrame Q) path (fs : file_system) :
  index_name df = Some "time" → fs !! path = None →
  compare_ref_timeseries_df df path fs = (<[path:=TimeseriesCsv df]> fs, Ok tt) ∧
  (wf_frame df → index df ≠ [] ∨ columns df = [] →
   compare_ref_timeseries_df df path (<[path:=TimeseriesCsv df]> fs)
     = (<[path:=TimeseriesCsv df]> fs, Ok tt)).
Proof.
  intros Hname Hnone. split.
  - by apply compare_ref_timeseries_df_absent.
  - intros Hwf Hrows.
    apply (compare_existing_all_pass df df); try done.
    + apply lookup_insert_eq.
    + intros k Hk. exists pass_result. split; [|done].
      destruct Hrows as [Hrows|Hcols].
      * by apply column_verdict_self.
      * unfold column_labels in Hk. rewrite Hcols in Hk. by apply elem_of_nil in Hk.
Qed.

(** The second call fails for a frame with a column and no rows. *)
Lemma compare_ref_timeseries_df_empty_rows :
  index_name empty_rows_frame = Some "time" ∧
  wf_frame empty_rows_frame ∧
  (∅ : file_system) !! "ref.csv" = None ∧
  ∃ fs,
    compare_ref_timeseries_df empty_rows_frame "ref.csv" ∅ = (fs, Ok tt) ∧
    compare_ref_timeseries_df empty_rows_frame "ref.csv" fs = (fs, Raise ValueError).
Proof.
  split; [done|]. split.
  { split; [apply NoDup_singleton|]. by repeat constructor. }
  split; [done|].
  eexists. split; [by apply compare_ref_timeseries_df_absent|].
  rewrite (compare_existing_unfold _ empty_rows_frame); [|done|apply lookup_insert_eq|done].
  vm_compute. reflexivity.
Qed.

(** ** [compare_ref_values_df] against an existing reference *)

Lemma values_check_outcome (df df_ref : DataFrame string) key (fs : file_system) :
  (v_test ← lift_exc (loc df key "value");
   v_ref ← lift_exc (loc df_ref key "value");
   results ← lift_exc (check_trajectory [v_test] [v_ref]);
   assertTrue (Pass results)
     (PyFormat "{0} Key is {1}." [Message results; PyStr key])) fs =
  (fs, values_check df df_ref key).
Proof.
  unfold values_check.
  destruct (loc df key "value") as [v_test|e] eqn:E1.
  2:{ by rewrite (io_bind_raise _ _ fs fs e). }
  rewrite (io_bind_ok _ _ fs fs v_test) by done.
  cbn [mbind exc_mbind exc_bind].
  destruct (loc df_ref key "value") as [v_ref|e] eqn:E2.
  2:{ by rewrite (io_bind_raise _ _ fs fs e). }
  rewrite (io_bind_ok _ _ fs fs v_ref) by done.
  cbn [mbind exc_mbind exc_bind].
  destruct (check_trajectory _ _) as [r|e] eqn:E3.
  2:{ by rewrite (io_bind_raise _ _ fs fs e). }
  rewrite (io_bind_ok _ _ fs fs r) by done.
  cbn [mbind exc_mbind exc_bind].
  unfold assertTrue. by destruct (Pass r).
Qed.

Lemma for_each_stateless {W I} (l : list I) (body : I → io W unit)
    (check : I → exc Q unit) w :
  (∀ k, body k w = (w, check k)) → for_each l body w = (w, all_ok check l).
Proof.
  intros Hbody. induction l as [|k l IH]; simpl; [done|].
  unfold mbind at 1, io_mbind, io_bind. rewrite Hbody.
  destruct (check k) as [[]|e]; [|done]. apply IH.
Qed.


(** The outcome of a comparison against an existing reference. *)
Lemma compare_values_existing (df df_ref : DataFrame string) path (fs : file_system) :
  fs !! path = Some (ValuesCsv df_ref) → index_name df_ref = Some "keys" →
  compare_ref_values_df df path fs =
    (fs, if negb (bool_decide (index_name df = Some "keys"))
         then Raise (AssertionError PyNone)
         else if negb (bool_decide (column_labels df = ["value"]))
         then Raise (AssertionError PyNone)
         else all_ok (values_check df df_ref) (index df)).
Proof.
  intros Hex Hname. unfold compare_ref_values_df.
  destruct (bool_decide (index_name df = Some "keys")); simpl; [|done].
  rewrite (io_bind_ok _ _ fs fs tt) by done.
  destruct (bool_decide (column_labels df = ["value"])); simpl; [|done].
  rewrite (io_bind_ok _ _ fs fs tt) by done.
  rewrite (io_bind_ok _ _ fs fs true).
  2:{ unfold path_exists. rewrite bool_decide_eq_true_2; [done|]. by rewrite Hex. }
  rewrite (io_bind_ok _ _ fs fs df_ref).
  2:{ unfold read_values_csv. rewrite Hex. by rewrite bool_decide_eq_true_2. }
  apply for_each_stateless. intros k. apply values_check_outcome.
Qed.



(** ** The scenario runners *)

Lemma io_bind_inv {W X Y} (m : io W X) (f : X → io W Y) w w' y :
  (m ≫= f) w = (w', Ok y) → ∃ w1 x, m w = (w1, Ok x) ∧ f x w1 = (w', Ok y).
Proof.
  unfold mbind, io_mbind, io_bind. destruct (m w) as [w1 [x|e]]; [|done].
  intros E. by exists w1, x.
Qed.

Lemma with_files_session {X} (m : io file_system X) w :
  session (with_files m w).1 = session w.
Proof. unfold with_files. by destruct (m (files w)). Qed.

Lemma put_scenario_price price w :
  put_scenario (Some price) None w =
    (mk_world (files w)
       (mk_session (communication_step (session w)) (current_time (session w))
          (mk_scenario (Some price) (time_period (scenario (session w))))
          (phase (session w))), Ok tt).
Proof. reflexivity. Qed.

(** Whatever its outcome, the check of one price scenario leaves the
    session at that price. *)
Lemma check_kpis_price remote self label price w :
  electricity_price (scenario (session (check_kpis remote self label price w).1))
  = Some price.
Proof.
  unfold check_kpis.
  rewrite (io_bind_ok _ _ _ _ tt (put_scenario_price price w)).
  erewrite (io_bind_ok (get_kpi remote)) by reflexivity.
  by rewrite with_files_session.
Qed.

Lemma for_each_last {W I} (l : list I) k (body : I → io W unit) w w'
    (P : W → Prop) :
  (∀ w0, P (body k w0).1) →
  for_each (l ++ [k]) body w = (w', Ok tt) → P w'.
Proof.
  intros Hk. revert w. induction l as [|k' l IH]; intros w; simpl.
  - unfold mbind, io_mbind, io_bind. pose proof (Hk w) as Hw.
    destruct (body k w) as [w1 [[]|e]]; [|done].
    by intros [= <-].
  - unfold mbind at 1, io_mbind, io_bind.
    destruct (body k' w) as [w1 [[]|e]]; [|done]. apply IH.
Qed.

Lemma price_sweep_ends_highly_dynamic remote self label w w' :
  for_each price_scenarios (check_kpis remote self label) w = (w', Ok tt) →
  electricity_price (scenario (session w')) = Some "highly_dynamic".
Proof.
  change price_scenarios with (["constant"; "dynamic"] ++ ["highly_dynamic"]).
  apply (for_each_last _ _ _ _ _
           (λ w, electricity_price (scenario (session w)) = Some "highly_dynamic")).
  intros w0. apply check_kpis_price.
Qed.

(** C7, for [run_season]: when the run completes, the last scenario request
    is the one that sets the price scenario to highly_dynamic; unlike
    [run_time_period], [run_season] sets constant before the sweep and not
    after it. *)
Theorem run_season_leaves_highly_dynamic remote self season w w' :
  run_season remote self season w = (w', Ok tt) →
  electricity_price (scenario (session w')) = Some "highly_dynamic".
Proof.
  unfold run_season. intros Hrun.
  apply io_bind_inv in Hrun as (? & ? & _ & Hrun). cbv zeta in Hrun.
  do 8 (apply io_bind_inv in Hrun as (? & ? & _ & Hrun)).
  by apply price_sweep_ends_highly_dynamic in Hrun.
Qed.

(** X24: when [run_time_period] completes, the price scenario of the remote
    test case is constant again: the last request of the run restores
    it. *)
Lemma run_time_period_restores_constant remote self period fuel w w' :
  run_time_period remote self period fuel w = Some (w', Ok tt) →
  electricity_price (scenario (session w')) = Some "constant".
Proof.
  unfold run_time_period.
  destruct (put_scenario None (Some period) w) as [w1 r1].
  destruct (simulation_loop remote fuel w1) as [[w2 [[]|e]]|]; [|done..].
  intros [= Hrun].
  do 3 (apply io_bind_inv in Hrun as (? & ? & _ & Hrun)).
  rewrite put_scenario_price in Hrun. by injection Hrun as <-.
Qed.

(** The simulation loop ends as soon as the remote answers with the falsy
    value, within any larger bound on the number of requests. *)
Lemma simulation_loop_fuel remote fuel fuel' w out :
  simulation_loop remote fuel w = Some out → (fuel ≤ fuel')%nat →
  simulation_loop remote fuel' w = Some out.
Proof.
  revert fuel' w. induction fuel as [|fuel IH]; intros fuel' w; simpl; [done|].
  intros Hloop Hle. destruct fuel' as [|fuel']; [lia|]. simpl.
  destruct (post_advance remote w) as [w1 [[]|e]]; try done.
  apply IH; [done|lia].
Qed.

(** ** The resampler *)

Lemma foldl_Qmin_spec (x : Q) (a : list Q) :
  foldl Qmin_b x a ∈ x :: a ∧ ∀ y, y ∈ x :: a → (foldl Qmin_b x a <= y)%Q.
Proof.
  revert x. induction a as [|z a IH]; intros x; simpl.
  - split; [by left|]. intros y Hy. apply list_elem_of_singleton in Hy as ->. lra.
  - destruct (IH (Qmin_b x z)) as [Hin Hle]. unfold Qmin_b in *.
    destruct (Qle_bool x z) eqn:E.
    + apply Qle_bool_iff in E. split.
      * apply elem_of_cons in Hin as [->|Hin]; [by left|by do 2 right].
      * intros y Hy. apply elem_of_cons in Hy as [->|Hy]; [apply Hle; by left|].
        apply elem_of_cons in Hy as [->|Hy]; [|apply Hle; by right].
        specialize (Hle x (list_elem_of_here _ _)). lra.
    + assert (¬ (x <= z)%Q) as E' by (rewrite <- Qle_bool_iff; by rewrite E).
      split.
      * apply elem_of_cons in Hin as [->|Hin]; [right; by left|by do 2 right].
      * intros y Hy. apply elem_of_cons in Hy as [->|Hy].
        -- specialize (Hle z (list_elem_of_here _ _)). lra.
        -- apply elem_of_cons in Hy as [->|Hy]; [apply Hle; by left|apply Hle; by right].
Qed.

Lemma foldl_Qmax_spec (x : Q) (a : list Q) :
  foldl Qmax_b x a ∈ x :: a ∧ ∀ y, y ∈ x :: a → (y <= foldl Qmax_b x a)%Q.
Proof.
  revert x. induction a as [|z a IH]; intros x; simpl.
  - split; [by left|]. intros y Hy. apply list_elem_of_singleton in Hy as ->. lra.
  - destruct (IH (Qmax_b x z)) as [Hin Hle]. unfold Qmax_b in *.
    destruct (Qle_bool x z) eqn:E.
    + apply Qle_bool_iff in E. split.
      * apply elem_of_cons in Hin as [->|Hin]; [right; by left|by do 2 right].
      * intros y Hy. apply elem_of_cons in Hy as [->|Hy].
        -- specialize (Hle z (list_elem_of_here _ _)). lra.
        -- apply elem_of_cons in Hy as [->|Hy]; [apply Hle; by left|apply Hle; by right].
    + assert (¬ (x <= z)%Q) as E' by (rewrite <- Qle_bool_iff; by rewrite E).
      split.
      * apply elem_of_cons in Hin as [->|Hin]; [by left|by do 2 right].
      * intros y Hy. apply elem_of_cons in Hy as [->|Hy]; [apply Hle; by left|].
        apply elem_of_cons in Hy as [->|Hy]; [|apply Hle; by right].
        specialize (Hle x (list_elem_of_here _ _)). lra.
Qed.

(** [np_min] and [np_max] return the least and the greatest entry. *)
Lemma np_min_spec (a : list Q) m :
  np_min a = Ok m → m ∈ a ∧ ∀ y, y ∈ a → (m <= y)%Q.
Proof. destruct a as [|x a]; [done|]. intros [= <-]. apply foldl_Qmin_spec. Qed.

Lemma np_max_spec (a : list Q) m :
  np_max a = Ok m → m ∈ a ∧ ∀ y, y ∈ a → (y <= m)%Q.
Proof. destruct a as [|x a]; [done|]. intros [= <-]. apply foldl_Qmax_spec. Qed.

Lemma np_linspace_length start stop n : length (np_linspace start stop n) = n.
Proof.
  destruct n as [|[|k]]; simpl; [done..|].
  rewrite length_app, length_map, length_seq. simpl. lia.
Qed.

Lemma np_linspace_last start stop n :
  (2 ≤ n)%nat → last (np_linspace start stop n) = Some stop.
Proof.
  destruct n as [|[|k]]; [lia..|]. intros _. unfold np_linspace.
  by rewrite last_snoc.
Qed.

Lemma np_linspace_lookup start stop n i t :
  (2 ≤ n)%nat → np_linspace start stop n !! i = Some t →
  (t == start + inject_Z (Z.of_nat i) * ((stop - start) / inject_Z (Z.of_nat (n - 1))))%Q.
Proof.
  destruct n as [|[|k]]; [lia..|]. intros _. unfold np_linspace.
  replace (S (S k) - 1)%nat with (S k) by lia.
  set (d := inject_Z (Z.of_nat (S k))).
  assert (¬ (d == 0)%Q) as Hd.
  { unfold d. intros E. apply (Qeq_bool_iff _ 0), Qeq_bool_eq in E.
    unfold Qeq in E. simpl in E. lia. }
  intros Hi. apply lookup_app_Some in Hi as [Hi|[Hlen Hi]].
  - rewrite list_lookup_fmap in Hi.
    destruct (seq 0 (S k) !! i) as [j|] eqn:Hj; [|done].
    apply lookup_seq in Hj as [-> _]. simpl in Hi. injection Hi as <-.
    rewrite Qred_correct. ring.
  - rewrite length_map, length_seq in Hlen, Hi.
    destruct (i - S k)%nat as [|?] eqn:E; [|done]. simpl in Hi. injection Hi as <-.
    assert (i = S k) as -> by lia. fold d. field. exact Hd.
Qed.

Lemma np_linspace_head start stop n :
  (1 ≤ n)%nat → ∃ t, head (np_linspace start stop n) = Some t ∧ (t == start)%Q.
Proof.
  destruct n as [|[|k]]; [lia| |]; intros _.
  - exists start. by split.
  - eexists. split; [reflexivity|]. rewrite Qred_correct. simpl. ring.
Qed.



Lemma interp_scan_right x xa fa pre x1 f1 :
  StronglySorted Qlt (xa :: (pre ++ [(x1, f1)]).*1) → (x1 <= x)%Q →
  interp_scan x xa fa (pre ++ [(x1, f1)]) = f1.
Proof.
  revert xa fa. induction pre as [|[xb fb] pre IH]; intros xa fa Hs H1; simpl.
  - by assert (Qle_bool x1 x = true) as -> by (by apply Qle_bool_iff).
  - apply StronglySorted_inv in Hs as [Hs _].
    rewrite <- app_comm_cons, fmap_cons in Hs. cbn [fst] in Hs.
    assert (xb < x1)%Q as Hb.
    { pose proof (StronglySorted_inv Hs) as [_ Hall].
      rewrite Forall_forall in Hall. apply Hall.
      rewrite fmap_app. apply elem_of_app. right. rewrite fmap_cons. by left. }
    assert (Qle_bool xb x = true) as -> by (apply Qle_bool_iff; lra).
    by apply IH.
Qed.

Lemma sorted_foldl_Qmin (x : Q) (a : list Q) :
  StronglySorted Qlt (x :: a) → foldl Qmin_b x a = x.
Proof.
  induction a as [|z a IH]; intros Hs; simpl; [done|].
  apply StronglySorted_inv in Hs as [Hs Hall].
  apply Forall_cons in Hall as [Hxz Hall].
  apply StronglySorted_inv in Hs as [Hs _].
  unfold Qmin_b at 2.
  assert (Qle_bool x z = true) as -> by (apply Qle_bool_iff; lra).
  apply IH. by constructor.
Qed.

Lemma sorted_foldl_Qmax (x : Q) (a : list Q) :
  StronglySorted Qlt (x :: a) → last (x :: a) = Some (foldl Qmax_b x a).
Proof.
  revert x. induction a as [|z a IH]; intros x Hs; simpl; [done|].
  apply StronglySorted_inv in Hs as [Hs Hall].
  apply Forall_cons in Hall as [Hxz _].
  unfold Qmax_b at 2.
  assert (Qle_bool x z = true) as -> by (apply Qle_bool_iff; lra).
  rewrite <- IH by done. done.
Qed.

Lemma interp_at_last (xs fs : list Q) xl fl :
  StronglySorted Qlt (xs ++ [xl]) → length xs = length fs →
  interp_at (zip (xs ++ [xl]) (fs ++ [fl])) xl = fl.
Proof.
  intros Hs Hlen. rewrite zip_with_app by done. simpl.
  destruct xs as [|x0 xs]; destruct fs as [|f0 fs]; try done; simpl.
  - by assert (Qle_bool xl xl = true) as -> by (apply Qle_bool_iff; lra).
  - assert (x0 < xl)%Q as Hlt.
    { simpl in Hs. apply StronglySorted_inv in Hs as [_ Hall].
      rewrite Forall_forall in Hall. apply Hall.
      apply elem_of_app. right. by left. }
    assert (Qle_bool xl x0 = false) as ->.
    { apply not_true_iff_false. rewrite Qle_bool_iff. lra. }
    apply interp_scan_right; [|lra].
    rewrite fmap_app. simpl. rewrite fst_zip by (simpl in Hlen; lia). exact Hs.
Qed.










(** ** Instances *)

Lemma check_trajectory_failure_fields_witness :
  length [b64 12 1] = length [b64 1 0] ∧
  py_max (combined_errors [b64 12 1] [b64 1 0]) = Ok (combined (b64 12 1) (b64 1 0)) ∧
  num_gtb (combined (b64 12 1) (b64 1 0)) tol = true ∧
  ∃ i_max yt yr,
    np_argmax (combined_errors [b64 12 1] [b64 1 0]) = Ok i_max ∧
    [b64 12 1] !! i_max = Some yt ∧ [b64 1 0] !! i_max = Some yr ∧
    check_trajectory [b64 12 1] [b64 1 0] =
      Ok (mk_result false
            (PyTuple [PyNum (combined (b64 12 1) (b64 1 0))])
            (PyTuple [PyInt (Z.of_nat i_max)])
            (PyFormat tolerance_template
               [PyNum (combined (b64 12 1) (b64 1 0)); PyNum tol;
                PyInt (Z.of_nat i_max); PyNum yt; PyNum yr])) ∧
    PyTuple [PyNum (combined (b64 12 1) (b64 1 0))]
      ≠ PyNum (combined (b64 12 1) (b64 1 0)) ∧
    PyTuple [PyInt (Z.of_nat i_max)] ≠ (PyInt (Z.of_nat i_max) : pyval binary64).
Proof.
  split; [reflexivity|]. split; [reflexivity|]. split; [vm_compute; reflexivity|].
  apply (check_trajectory_failure_fields [b64 12 1] [b64 1 0]);
    [reflexivity|reflexivity|vm_compute; reflexivity].
Defined.

Lemma check_trajectory_length_mismatch_witness :
  length [b64 1 0; b64 2 0] ≠ length [b64 1 0] ∧
  check_trajectory [b64 1 0; b64 2 0] [b64 1 0] =
    Ok (mk_result false PyNone PyNone
          (PyStr ("Test and reference trajectory not the same length" +:+ "."))).
Proof.
  split; [simpl; lia|].
  apply (check_trajectory_length_mismatch [b64 1 0; b64 2 0] [b64 1 0]).
  simpl. lia.
Defined.

Lemma check_trajectory_pass_fields_witness :
  length [b64 10005 4; b64 2 0] = length [b64 1 0; b64 2 0] ∧
  (∀ m, py_max (combined_errors [b64 10005 4; b64 2 0] [b64 1 0; b64 2 0]) = Ok m →
        num_leb m tol = true) ∧
  check_trajectory [b64 10005 4; b64 2 0] [b64 1 0; b64 2 0]
    = Ok (mk_result true PyNone PyNone PyNone).
Proof.
  assert (∀ m, py_max (combined_errors [b64 10005 4; b64 2 0] [b64 1 0; b64 2 0]) = Ok m →
               num_leb m tol = true) as Hmax.
  { intros m Hm. vm_compute in Hm. injection Hm as <-. vm_compute. reflexivity. }
  split; [reflexivity|]. split; [exact Hmax|].
  apply (check_trajectory_pass_fields [b64 10005 4; b64 2 0] [b64 1 0; b64 2 0]);
    [reflexivity|exact Hmax].
Defined.

Lemma check_trajectory_self_witness :
  forallb is_finite [b64 1 0; b64 (-25) 1; b64 0 0] = true ∧
  check_trajectory [b64 1 0; b64 (-25) 1; b64 0 0] [b64 1 0; b64 (-25) 1; b64 0 0]
    = Ok (mk_result true PyNone PyNone PyNone) ∧
  ∀ err_max,
    py_max (combined_errors [b64 1 0; b64 (-25) 1; b64 0 0]
                            [b64 1 0; b64 (-25) 1; b64 0 0]) = Ok err_max →
    err_max = zero.
Proof.
  split; [vm_compute; reflexivity|].
  apply (check_trajectory_self [b64 1 0; b64 (-25) 1; b64 0 0]).
  vm_compute. reflexivity.
Defined.


Lemma compare_ref_timeseries_df_baseline_witness :
  index_name test_ab = Some "time" ∧
  (∅ : file_system) !! "ref.csv" = None ∧
  wf_frame test_ab ∧ (index test_ab ≠ [] ∨ columns test_ab = []) ∧
  (* a frame with rows: both calls return normally *)
  compare_ref_timeseries_df test_ab "ref.csv" ∅
    = (<["ref.csv":=TimeseriesCsv test_ab]> ∅, Ok tt) ∧
  compare_ref_timeseries_df test_ab "ref.csv" (<["ref.csv":=TimeseriesCsv test_ab]> ∅)
    = (<["ref.csv":=TimeseriesCsv test_ab]> ∅, Ok tt) ∧
  (* a frame with a column and no rows: the first call returns normally *)
  index_name empty_rows_frame = Some "time" ∧
  compare_ref_timeseries_df empty_rows_frame "ref.csv" ∅
    = (<["ref.csv":=TimeseriesCsv empty_rows_frame]> ∅, Ok tt).
Proof.
  assert (wf_frame test_ab) as Hwf.
  { split; [|by repeat constructor].
    apply NoDup_cons. split; [|apply NoDup_singleton].
    intros Hin. apply list_elem_of_singleton in Hin. discriminate. }
  assert (index test_ab ≠ [] ∨ columns test_ab = []) as Hrows by (by left).
  assert ((∅ : file_system) !! "ref.csv" = None) as Hnone by reflexivity.
  destruct (compare_ref_timeseries_df_baseline test_ab "ref.csv" ∅ eq_refl Hnone)
    as [Hfirst Hsecond].
  split; [reflexivity|]. split; [exact Hnone|]. split; [exact Hwf|].
  split; [exact Hrows|]. split; [exact Hfirst|].
  split; [exact (Hsecond Hwf Hrows)|]. split; [reflexivity|].
  exact (proj1 (compare_ref_timeseries_df_baseline empty_rows_frame "ref.csv" ∅
                  eq_refl Hnone)).
Defined.



Lemma run_season_leaves_highly_dynamic_witness :
  run_season example_remote example_self "winter" example_world
    = ((run_season example_remote example_self "winter" example_world).1, Ok tt) ∧
  electricity_price
    (scenario (session (run_season example_remote example_self "winter" example_world).1))
    = Some "highly_dynamic".
Proof.
  assert (run_season example_remote example_self "winter" example_world
          = ((run_season example_remote example_self "winter" example_world).1, Ok tt))
    as Hrun by (vm_compute; reflexivity).
  split; [exact Hrun|].
  apply (run_season_leaves_highly_dynamic example_remote example_self "winter"
           example_world _ Hrun).
Defined.

(** ** Further properties of [check_trajectory] *)

Section CheckTrajectoryResult.
Context {A : Type} `{PyNumberLaws A}.

(** X1: the comparison loop, which reassesses the partly filled error array at
    every index, returns what one assessment of the complete array
    returns. *)
Theorem check_trajectory_single_assessment (y_test y_ref : list A) :
  check_trajectory y_test y_ref = check_once y_test y_ref.
Proof. apply check_trajectory_once. Qed.

(** X2: [check_trajectory] never raises, and its result is either the untouched
    initial dictionary or a failure with a message: [Message] is [None]
    exactly when [Pass] is true, and [ErrorMax] and [IndexMax] are set
    together. *)
Theorem check_trajectory_result_shape (y_test y_ref : list A) :
  ∃ r, check_trajectory y_test y_ref = Ok r ∧
       (Pass r = true → r = mk_result true PyNone PyNone PyNone) ∧
       (Pass r = false → Message r ≠ PyNone) ∧
       (ErrorMax r = PyNone ↔ IndexMax r = PyNone).
Proof.
  rewrite check_trajectory_once. unfold check_once.
  destruct (length y_test =? length y_ref)%nat eqn:Hlen; simpl.
  2:{ eexists. split; [reflexivity|]. simpl. repeat split; done. }
  apply Nat.eqb_eq in Hlen.
  pose proof (combined_errors_length _ _ Hlen) as Lc.
  destruct (combined_errors y_test y_ref) as [|e errs] eqn:E.
  { exists pass_result. repeat split; done. }
  destruct (assess_cases y_test y_ref (e :: errs) pass_result)
    as (m & j & yt & yr & _ & _ & _ & _ & ->); [lia|lia|done|].
  eexists. split; [reflexivity|].
  destruct (num_gtb m tol); simpl; repeat split; done.
Qed.
End CheckTrajectoryResult.

(** *** In exact arithmetic *)

Lemma Q_gtb_lt (x y : Q) : num_gtb x y = true ↔ (y < x)%Q.
Proof.
  cbn [num_gtb Q_number]. rewrite negb_true_iff, <- not_true_iff_false, Qle_bool_iff.
  split; intros ?; lra.
Qed.

Lemma Q_gtb_le (x y : Q) : num_gtb x y = false ↔ (x <= y)%Q.
Proof.
  cbn [num_gtb Q_number]. rewrite negb_false_iff, Qle_bool_iff. done.
Qed.

Lemma Q_foldl_max_upper (c : Q) (l : list Q) :
  (c <= foldl max_step c l)%Q ∧ ∀ y, y ∈ l → (y <= foldl max_step c l)%Q.
Proof.
  revert c. induction l as [|x l IH]; intros c; simpl.
  - split; [lra|]. intros y Hy. by apply elem_of_nil in Hy.
  - destruct (IH (max_step c x)) as [Hc Hl].
    assert (c <= max_step c x ∧ x <= max_step c x)%Q as [H1 H2].
    { unfold max_step. destruct (num_gtb x c) eqn:E.
      - apply Q_gtb_lt in E. lra.
      - apply Q_gtb_le in E. lra. }
    split; [lra|]. intros y Hy. apply elem_of_cons in Hy as [->|Hy]; [lra|by apply Hl].
Qed.

(** The builtin [max] returns an entry that no entry exceeds. *)
Lemma Q_py_max_spec (l : list Q) m :
  py_max l = Ok m → m ∈ l ∧ ∀ y, y ∈ l → (y <= m)%Q.
Proof.
  intros Hm. split; [by apply py_max_elem|].
  destruct l as [|x l]; [done|]. simpl in Hm. injection Hm as <-.
  destruct (Q_foldl_max_upper x l) as [Hx Hl].
  intros y Hy. apply elem_of_cons in Hy as [->|Hy]; [done|by apply Hl].
Qed.

Lemma check_trajectory_length_mismatch_any {A} `{PyNumber A} (y_test y_ref : list A) :
  length y_test ≠ length y_ref →
  check_trajectory y_test y_ref =
    Ok (mk_result false PyNone PyNone (PyStr length_message)).
Proof.
  intros Hne. unfold check_trajectory.
  apply Nat.eqb_neq in Hne. by rewrite Hne.
Qed.

Lemma check_trajectory_pass_iff_any (y_test y_ref : list Q) :
  length y_test = length y_ref →
  check_trajectory y_test y_ref = Ok (mk_result true PyNone PyNone PyNone)
  ↔ ∀ e, e ∈ combined_errors y_test y_ref → (e <= 1 # 1000)%Q.
Proof.
  intros Hlen. split.
  - intros Hpass e He.
    assert (y_ref ≠ []) as Hne.
    { intros ->. destruct y_test; [|done]. by apply elem_of_nil in He. }
    destruct (check_trajectory_verdict y_test y_ref Hlen Hne)
      as (m & j & yt & yr & Hm & _ & _ & _ & Hcheck).
    rewrite Hpass in Hcheck.
    destruct (num_gtb m tol) eqn:Hgt; [unfold fail_result in Hcheck; discriminate Hcheck|].
    apply Q_gtb_le in Hgt. rewrite Q_tol_value in Hgt.
    apply Q_py_max_spec in Hm as [_ Hle]. specialize (Hle e He). lra.
  - intros Hall. apply check_trajectory_all_within; [done|].
    intros e He. apply Q_gtb_le. rewrite Q_tol_value. by apply Hall.
Qed.

(** X3: with trajectories of equal length, the comparison passes exactly when
    every combined error is within the tolerance. *)
Theorem check_trajectory_pass_iff (y_test y_ref : list Q) :
  length y_test = length y_ref →
  check_trajectory y_test y_ref = Ok (mk_result true PyNone PyNone PyNone)
  ↔ ∀ e, e ∈ combined_errors y_test y_ref → (e <= 1 # 1000)%Q.
Proof. apply check_trajectory_pass_iff_any. Qed.

Lemma Q_ten_tol_value : num_mul (num_dec 10 0) (tol : Q) = (1 # 100)%Q.
Proof. reflexivity. Qed.

(** The combined error in exact arithmetic: the absolute error, plus the
    relative error where the reference exceeds ten times the tolerance. *)
Lemma Q_combined_value (yt yr : Q) :
  (combined yt yr ==
   Qabs (yt - yr) + (if Qle_bool (Qabs yr) (1 # 100) then 0
                     else Qabs (yt - yr) / Qabs yr))%Q.
Proof.
  unfold combined, rel_err, abs_err. rewrite Q_ten_tol_value.
  cbn [num_add num_sub num_abs num_div num_gtb Q_number].
  destruct (Qle_bool (Qabs yr) (1 # 100)); simpl;
    rewrite !Qred_correct; reflexivity.
Qed.

Lemma Q_combined_ge_abs (yt yr : Q) : (Qabs (yt - yr) <= combined yt yr)%Q.
Proof.
  rewrite Q_combined_value.
  pose proof (Qabs_nonneg (yt - yr)) as Ha.
  destruct (Qle_bool (Qabs yr) (1 # 100)) eqn:E; [lra|].
  assert (1 # 100 < Qabs yr)%Q as Hr.
  { apply Qnot_le_lt. rewrite <- Qle_bool_iff. by rewrite E. }
  assert (0 <= Qabs (yt - yr) / Qabs yr)%Q; [|lra].
  apply Qle_shift_div_l; lra.
Qed.

(** X4: a comparison that passes bounds the absolute error at every index by
    the tolerance. *)
Theorem check_trajectory_pass_bounds (y_test y_ref : list Q) :
  check_trajectory y_test y_ref = Ok (mk_result true PyNone PyNone PyNone) →
  length y_test = length y_ref ∧
  ∀ i yt yr, y_test !! i = Some yt → y_ref !! i = Some yr →
             (Qabs (yt - yr) <= 1 # 1000)%Q.
Proof.
  intros Hpass.
  assert (length y_test = length y_ref) as Hlen.
  { destruct (decide (length y_test = length y_ref)) as [|Hne]; [done|].
    rewrite (check_trajectory_length_mismatch_any y_test y_ref Hne) in Hpass.
    discriminate Hpass. }
  split; [done|]. intros i yt yr Hyt Hyr.
  pose proof (proj1 (check_trajectory_pass_iff_any y_test y_ref Hlen) Hpass) as Hall.
  pose proof (Q_combined_ge_abs yt yr) as Hge.
  assert (combined yt yr <= 1 # 1000)%Q; [|lra].
  apply Hall. unfold combined_errors. apply elem_of_lookup_zip_with.
  by exists i, yt, yr.
Qed.

(** X5: where no reference value exceeds ten times the tolerance in magnitude,
    the relative error plays no part: the comparison passes exactly when
    every absolute error is within the tolerance. *)
Theorem check_trajectory_small_reference (y_test y_ref : list Q) :
  length y_test = length y_ref →
  (∀ yr, yr ∈ y_ref → (Qabs yr <= 1 # 100)%Q) →
  check_trajectory y_test y_ref = Ok (mk_result true PyNone PyNone PyNone)
  ↔ ∀ i yt yr, y_test !! i = Some yt → y_ref !! i = Some yr →
               (Qabs (yt - yr) <= 1 # 1000)%Q.
Proof.
  intros Hlen Hsmall. split.
  - intros Hpass i yt yr Hyt Hyr.
    pose proof (proj1 (check_trajectory_pass_iff_any y_test y_ref Hlen) Hpass) as Hall.
    pose proof (Q_combined_ge_abs yt yr) as Hge.
    assert (combined yt yr <= 1 # 1000)%Q; [|lra].
    apply Hall. unfold combined_errors. apply elem_of_lookup_zip_with.
    by exists i, yt, yr.
  - intros Habs. apply check_trajectory_pass_iff_any; [done|].
    intros e He. unfold combined_errors in He.
    apply elem_of_lookup_zip_with in He as (i & yt & yr & -> & Hyt & Hyr).
    rewrite Q_combined_value.
    assert (Qle_bool (Qabs yr) (1 # 100) = true) as ->.
    { apply Qle_bool_iff, Hsmall. apply list_elem_of_lookup. eauto. }
    specialize (Habs i yt yr Hyt Hyr). lra.
Qed.

(** In exact arithmetic [np.argmax] and the builtin [max] agree: the index
    is the first one at which the maximum is attained. *)
Lemma Q_argmax_scan_spec (l pre : list Q) (mp : Q) (i_max : nat) :
  pre !! i_max = Some mp →
  (∀ j y, pre !! j = Some y → (y <= mp)%Q) →
  (∀ j y, (j < i_max)%nat → pre !! j = Some y → (y < mp)%Q) →
  (pre ++ l) !! argmax_scan mp i_max (length pre) l = Some (foldl max_step mp l) ∧
  ∀ j y, (j < argmax_scan mp i_max (length pre) l)%nat →
         (pre ++ l) !! j = Some y → (y < foldl max_step mp l)%Q.
Proof.
  revert pre mp i_max. induction l as [|x l IH]; intros pre mp i_max Hmp Hle Hlt.
  - simpl. rewrite app_nil_r. split; [done|]. intros j y. apply Hlt.
  - simpl. cbn [num_leb Q_number]. unfold max_step at 2 4.
    cbn [num_gtb Q_number].
    assert (pre ++ x :: l = (pre ++ [x]) ++ l) as -> by (by rewrite <- app_assoc).
    replace (S (length pre)) with (length (pre ++ [x]))
      by (rewrite length_app; simpl; lia).
    destruct (Qle_bool x mp) eqn:E; simpl.
    + apply Qle_bool_iff in E. apply IH.
      * rewrite lookup_app_l; [done|]. by apply lookup_lt_Some in Hmp.
      * intros j y Hj. apply lookup_app_Some in Hj as [Hj|[_ Hj]]; [by eapply Hle|].
        apply list_lookup_singleton_Some in Hj as [_ <-]. done.
      * intros j y Hji Hj. apply lookup_app_Some in Hj as [Hj|[Hge Hj]]; [by eapply Hlt|].
        apply lookup_lt_Some in Hmp. lia.
    + assert (mp < x)%Q as Hx.
      { apply Qnot_le_lt. rewrite <- Qle_bool_iff. by rewrite E. }
      assert (Qle_bool x x = true) as -> by (apply Qle_bool_iff; lra).
      apply IH.
      * rewrite lookup_app_r by lia. by rewrite Nat.sub_diag.
      * intros j y Hj. apply lookup_app_Some in Hj as [Hj|[_ Hj]].
        -- specialize (Hle j y Hj). lra.
        -- apply list_lookup_singleton_Some in Hj as [_ <-]. lra.
      * intros j y Hji Hj. rewrite lookup_app_l in Hj by done.
        specialize (Hle j y Hj). lra.
Qed.

Lemma Q_np_argmax_spec (l : list Q) i m :
  np_argmax l = Ok i → py_max l = Ok m →
  l !! i = Some m ∧ ∀ j y, (j < i)%nat → l !! j = Some y → (y < m)%Q.
Proof.
  destruct l as [|x l]; [done|]. simpl. cbn [num_leb Q_number].
  assert (Qle_bool x x = true) as -> by (apply Qle_bool_iff; lra).
  intros [= <-] [= <-].
  apply (Q_argmax_scan_spec l [x] x 0).
  - done.
  - intros j y Hj. apply list_lookup_singleton_Some in Hj as [_ <-]. lra.
  - intros j y Hj. lia.
Qed.

(** X6: on a tolerance failure the reported index is the first one at which
    the combined error attains its maximum, the reported maximum exceeds the
    tolerance, and the two values in the message are the test and the
    reference value at that index. *)
Theorem check_trajectory_failure_index (y_test y_ref : list Q) (r : result Q) :
  length y_test = length y_ref →
  check_trajectory y_test y_ref = Ok r → Pass r = false →
  ∃ err_max i_max yt yr,
    r = fail_result err_max i_max yt yr ∧
    y_test !! i_max = Some yt ∧ y_ref !! i_max = Some yr ∧
    combined yt yr = err_max ∧ (1 # 1000 < err_max)%Q ∧
    (∀ e, e ∈ combined_errors y_test y_ref → (e <= err_max)%Q) ∧
    (∀ j e, (j < i_max)%nat → combined_errors y_test y_ref !! j = Some e →
            (e < err_max)%Q).
Proof.
  intros Hlen Hcheck Hfail.
  assert (y_ref ≠ []) as Hne.
  { intros ->. destruct y_test; [|done]. vm_compute in Hcheck.
    injection Hcheck as <-. discriminate Hfail. }
  destruct (check_trajectory_verdict y_test y_ref Hlen Hne)
    as (m & j & yt & yr & Hm & Hj & Hyt & Hyr & Hv).
  rewrite Hcheck in Hv.
  destruct (num_gtb m tol) eqn:Hgt.
  2:{ injection Hv as ->. discriminate Hfail. }
  injection Hv as ->. apply Q_gtb_lt in Hgt. rewrite Q_tol_value in Hgt.
  destruct (Q_np_argmax_spec _ _ _ Hj Hm) as [Hjm Hfirst].
  exists m, j, yt, yr. repeat split; try done.
  - unfold combined_errors in Hjm. rewrite lookup_zip_with, Hyt in Hjm.
    simpl in Hjm. rewrite Hyr in Hjm. simpl in Hjm. by injection Hjm.
  - by apply Q_py_max_spec.
Qed.

(** ** Further properties of [create_test_points] *)

(** X7: [create_test_points] raises, with [ValueError], exactly on an empty
    series; on any other series it returns exactly [n] times and [n]
    values, whatever [n] is. *)
Theorem create_test_points_empty_or_n (s : Series) (n : nat) :
  length (s_index s) = length (s_data s) →
  (s_index s = [] → create_test_points s n = Raise ValueError) ∧
  (s_index s ≠ [] →
   ∃ r, create_test_points s n = Ok r ∧
        length (s_index r) = n ∧ length (s_data r) = n).
Proof.
  intros Hlen. split.
  - intros E. unfold create_test_points. by rewrite E.
  - intros Hne.
    destruct (create_test_points_ok s n Hne Hlen) as (t_min & t_max & _ & _ & ->).
    eexists. split; [reflexivity|]. cbn [s_index s_data].
    by rewrite !length_map, np_linspace_length.
Qed.

Lemma np_linspace_constant (t : Q) n x :
  x ∈ np_linspace t t n → (x == t)%Q.
Proof.
  destruct n as [|[|k]]; simpl.
  - intros Hx. by apply elem_of_nil in Hx.
  - intros Hx. apply list_elem_of_singleton in Hx as ->. reflexivity.
  - intros Hx. apply elem_of_cons in Hx as [->|Hx].
    + rewrite Qred_correct. field.
      intros E. apply (Qeq_bool_iff _ 0), Qeq_bool_eq in E.
      unfold Qeq in E. simpl in E. lia.
    + apply elem_of_app in Hx as [Hx|Hx].
      * apply list_elem_of_fmap in Hx as (i & -> & _).
        rewrite Qred_correct. field.
        intros E. apply (Qeq_bool_iff _ 0), Qeq_bool_eq in E.
        unfold Qeq in E. simpl in E. lia.
      * apply list_elem_of_singleton in Hx as ->. reflexivity.
Qed.

(** X8: a series of a single sample is resampled without error: every time is
    the sample's time and every value is the sample's value, rounded. *)
Theorem create_test_points_single_sample (t0 v0 : Q) (n : nat) :
  ∃ r, create_test_points (mk_series [t0] [v0]) n = Ok r ∧
       length (s_index r) = n ∧
       (∀ t, t ∈ s_index r → (t == t0)%Q) ∧
       s_data r = replicate n (round_8g v0).
Proof.
  eexists. split; [reflexivity|]. cbn [s_index s_data foldl].
  split; [apply np_linspace_length|]. split; [apply np_linspace_constant|].
  rewrite <- list_fmap_compose.
  rewrite <- (np_linspace_length t0 t0 n) at 2.
  generalize (np_linspace t0 t0 n). intros l.
  induction l as [|x l IH]; [done|].
  rewrite fmap_cons, IH. simpl. f_equal.
  by destruct (Qle_bool x t0).
Qed.

Lemma create_test_points_inv (s : Series) (n : nat) r :
  create_test_points s n = Ok r →
  ∃ t_min t_max,
    np_min (s_index s) = Ok t_min ∧ np_max (s_index s) = Ok t_max ∧
    r = mk_series (np_linspace t_min t_max n)
          (map round_8g
             (map (interp_at (zip (s_index s) (s_data s)))
                (np_linspace t_min t_max n))).
Proof.
  unfold create_test_points.
  destruct (np_min (s_index s)) as [t_min|] eqn:Hmin; [|done].
  destruct (np_max (s_index s)) as [t_max|] eqn:Hmax; [|done].
  cbn [mbind exc_mbind exc_bind]. unfold np_interp.
  destruct (decide (s_index s = [])); [done|].
  destruct (negb _); [done|]. cbn [mbind exc_mbind exc_bind].
  intros [= <-]. by exists t_min, t_max.
Qed.

Lemma inject_nat_nonneg (i : nat) : (0 <= inject_Z (Z.of_nat i))%Q.
Proof. change 0%Q with (inject_Z 0). rewrite <- Zle_Qle. lia. Qed.

Lemma inject_nat_le (i j : nat) :
  (i ≤ j)%nat → (inject_Z (Z.of_nat i) <= inject_Z (Z.of_nat j))%Q.
Proof. intros Hij. rewrite <- Zle_Qle. lia. Qed.

Lemma np_linspace_bounds start stop n i t :
  (start <= stop)%Q → np_linspace start stop n !! i = Some t →
  (start <= t)%Q ∧ (t <= stop)%Q.
Proof.
  intros Hle Hi. destruct n as [|[|k]].
  - done.
  - destruct i; [|done]. injection Hi as <-. lra.
  - pose proof (lookup_lt_Some _ _ _ Hi) as Hlt. rewrite np_linspace_length in Hlt.
    apply np_linspace_lookup in Hi; [|lia]. rewrite Hi.
    replace (S (S k) - 1)%nat with (S k) by lia.
    set (d := inject_Z (Z.of_nat (S k))).
    assert (0 < d)%Q as Hd.
    { unfold d. change 0%Q with (inject_Z 0). rewrite <- Zlt_Qlt. lia. }
    assert (0 <= (stop - start) / d)%Q as Hstep by (apply Qle_shift_div_l; lra).
    pose proof (inject_nat_nonneg i) as Hi0.
    assert (inject_Z (Z.of_nat i) <= d)%Q as Hid by (apply inject_nat_le; lia).
    split.
    + assert (0 <= inject_Z (Z.of_nat i) * ((stop - start) / d))%Q; [|lra].
      by apply Qmult_le_0_compat.
    + assert (inject_Z (Z.of_nat i) * ((stop - start) / d)
              <= d * ((stop - start) / d))%Q as Hm
        by (by apply Qmult_le_compat_r).
      assert (d * ((stop - start) / d) == stop - start)%Q as Hdd
        by (field; lra).
      lra.
Qed.

Lemma np_linspace_mono start stop n i j ti tj :
  (start <= stop)%Q → (i ≤ j)%nat →
  np_linspace start stop n !! i = Some ti →
  np_linspace start stop n !! j = Some tj → (ti <= tj)%Q.
Proof.
  intros Hle Hij Hi Hj. destruct n as [|[|k]].
  - done.
  - destruct i, j; try done. injection Hi as <-. injection Hj as <-. lra.
  - apply np_linspace_lookup in Hi; [|lia]. apply np_linspace_lookup in Hj; [|lia].
    rewrite Hi, Hj. replace (S (S k) - 1)%nat with (S k) by lia.
    set (d := inject_Z (Z.of_nat (S k))).
    assert (0 < d)%Q as Hd.
    { unfold d. change 0%Q with (inject_Z 0). rewrite <- Zlt_Qlt. lia. }
    assert (0 <= (stop - start) / d)%Q as Hstep by (apply Qle_shift_div_l; lra).
    assert (inject_Z (Z.of_nat i) * ((stop - start) / d)
            <= inject_Z (Z.of_nat j) * ((stop - start) / d))%Q
      by (apply Qmult_le_compat_r; [by apply inject_nat_le|done]).
    lra.
Qed.

(** X9: the resampled times never leave the range of the input times and never
    decrease: the result is again a trajectory in time order. *)
Theorem create_test_points_times_ordered (s : Series) (n : nat) (r : Series) :
  create_test_points s n = Ok r →
  ∃ t_min t_max,
    (t_min ∈ s_index s ∧ ∀ t, t ∈ s_index s → (t_min <= t)%Q) ∧
    (t_max ∈ s_index s ∧ ∀ t, t ∈ s_index s → (t <= t_max)%Q) ∧
    (∀ t, t ∈ s_index r → (t_min <= t)%Q ∧ (t <= t_max)%Q) ∧
    (∀ i j ti tj, (i ≤ j)%nat → s_index r !! i = Some ti →
                  s_index r !! j = Some tj → (ti <= tj)%Q).
Proof.
  intros Hr. apply create_test_points_inv in Hr as (t_min & t_max & Hmin & Hmax & ->).
  apply np_min_spec in Hmin. apply np_max_spec in Hmax.
  assert (t_min <= t_max)%Q as Hle by (apply Hmin, Hmax).
  exists t_min, t_max. cbn [s_index].
  split; [exact Hmin|]. split; [exact Hmax|]. split.
  - intros t Ht. apply list_elem_of_lookup in Ht as [i Hi].
    by eapply np_linspace_bounds.
  - intros i j ti tj. by apply np_linspace_mono.
Qed.

(** X10: on an increasing index the resampling keeps both ends of the
    trajectory: with at least two target points, the first value is the
    first input value and the last value is the last input value, each
    rounded. *)
Theorem create_test_points_endpoints (s : Series) (n : nat) (f0 fl : Q) :
  StronglySorted Qlt (s_index s) → length (s_index s) = length (s_data s) →
  (2 ≤ n)%nat →
  head (s_data s) = Some f0 → last (s_data s) = Some fl →
  ∃ r, create_test_points s n = Ok r ∧
       head (s_data r) = Some (round_8g f0) ∧
       last (s_data r) = Some (round_8g fl).
Proof.
  intros Hs Hlen Hn Hhead Hlast.
  destruct s as [idx dat]. cbn [s_index s_data] in *.
  destruct dat as [|f0' dat]; [done|]. injection Hhead as ->.
  destruct idx as [|x0 idx]; [done|].
  destruct (create_test_points_ok (mk_series (x0 :: idx) (f0 :: dat)) n)
    as (t_min & t_max & Hmin & Hmax & ->); [done|done|].
  simpl in Hmin, Hmax. injection Hmin as <-. injection Hmax as <-.
  rewrite (sorted_foldl_Qmin x0 idx Hs).
  pose proof (sorted_foldl_Qmax x0 idx Hs) as Hxl.
  set (xl := foldl Qmax_b x0 idx) in *.
  eexists. split; [reflexivity|]. cbn [s_index s_data]. split.
  - destruct (np_linspace_head x0 xl n) as (t & Ht & Heq); [lia|].
    destruct (np_linspace x0 xl n) as [|t' l]; [done|]. injection Ht as ->.
    simpl. do 2 f_equal.
    by assert (Qle_bool t x0 = true) as -> by (apply Qle_bool_iff; lra).
  - assert (interp_at (zip (x0 :: idx) (f0 :: dat)) xl = fl) as Hl.
    { assert (∃ xs, x0 :: idx = xs ++ [xl]) as [xs Exs].
      { apply last_Some in Hxl as [xs ->]. by exists xs. }
      assert (∃ fs, f0 :: dat = fs ++ [fl]) as [fs Efs].
      { apply last_Some in Hlast as [fs ->]. by exists fs. }
      rewrite Exs, Efs. apply interp_at_last.
      + by rewrite <- Exs.
      + rewrite Exs, Efs, !length_app in Hlen. simpl in Hlen. lia. }
    rewrite !fmap_last, (np_linspace_last x0 xl n Hn).
    cbn [fmap option_fmap option_map]. by rewrite Hl.
Qed.


(** ** Eight significant digits *)











(** ** The reference store and the file system *)

Lemma keeps_state_ret {W X} (x : X) : keeps_state (mret x : io W X).
Proof. by intros w. Qed.

Lemma keeps_state_raise {W X} e : keeps_state (raise e : io W X).
Proof. by intros w. Qed.

Lemma keeps_state_lift {W X} (r : exc Q X) : keeps_state (lift_exc r : io W X).
Proof. by intros w. Qed.

Lemma keeps_state_bind {W X Y} (m : io W X) (f : X → io W Y) :
  keeps_state m → (∀ x, keeps_state (f x)) → keeps_state (m ≫= f).
Proof.
  intros Hm Hf w. unfold mbind, io_mbind, io_bind.
  pose proof (Hm w) as Hw. destruct (m w) as [w' [x|e]]; simpl in Hw; subst w'.
  - apply Hf.
  - done.
Qed.

Lemma keeps_state_for_each {W I} (l : list I) (body : I → io W unit) :
  (∀ k, keeps_state (body k)) → keeps_state (for_each l body).
Proof.
  intros Hbody. induction l as [|k l IH]; simpl.
  - apply keeps_state_ret.
  - apply keeps_state_bind; [apply Hbody|]. intros _. apply IH.
Qed.

Lemma keeps_state_assertTrue {W} cond msg : keeps_state (assertTrue (W:=W) cond msg).
Proof. unfold assertTrue. destruct cond; [apply keeps_state_ret|apply keeps_state_raise]. Qed.

Lemma keeps_state_read_timeseries path name : keeps_state (read_timeseries_csv path name).
Proof.
  intros fs. unfold read_timeseries_csv.
  destruct (fs !! path) as [[df|df]|]; try done. by destruct (bool_decide _).
Qed.

Lemma keeps_state_read_values path name : keeps_state (read_values_csv path name).
Proof.
  intros fs. unfold read_values_csv.
  destruct (fs !! path) as [[df|df]|]; try done. by destruct (bool_decide _).
Qed.

Lemma compare_ref_timeseries_df_rejected (df : DataFrame Q) path (fs : file_system) :
  index_name df ≠ Some "time" →
  compare_ref_timeseries_df df path fs = (fs, Raise (AssertionError PyNone)).
Proof.
  intros Hne. unfold compare_ref_timeseries_df.
  by rewrite (io_bind_raise _ _ fs fs (AssertionError PyNone))
    by (unfold py_assert; by rewrite bool_decide_eq_false_2).
Qed.

Lemma compare_ref_timeseries_df_existing (df : DataFrame Q) path (fs : file_system) :
  is_Some (fs !! path) → (compare_ref_timeseries_df df path fs).1 = fs.
Proof.
  intros Hsome.
  destruct (decide (index_name df = Some "time")) as [Hn|Hn];
    [|by rewrite compare_ref_timeseries_df_rejected].
  unfold compare_ref_timeseries_df.
  rewrite (io_bind_ok _ _ fs fs tt)
    by (unfold py_assert; by rewrite bool_decide_eq_true_2).
  rewrite (io_bind_ok _ _ fs fs true)
    by (unfold path_exists; by rewrite bool_decide_eq_true_2).
  apply keeps_state_bind; [apply keeps_state_read_timeseries|]. intros df_ref.
  apply keeps_state_bind.
  { apply keeps_state_for_each. intros k. apply keeps_state_assertTrue. }
  intros _. apply keeps_state_bind.
  { apply keeps_state_for_each. intros k. apply keeps_state_assertTrue. }
  intros _. apply keeps_state_for_each. intros k.
  apply keeps_state_bind; [apply keeps_state_lift|]. intros s_test.
  apply keeps_state_bind; [apply keeps_state_lift|]. intros s_ref.
  apply keeps_state_bind; [apply keeps_state_lift|]. intros results.
  apply keeps_state_assertTrue.
Qed.

Lemma compare_ref_values_df_absent (df : DataFrame string) path (fs : file_system) :
  index_name df = Some "keys" → column_labels df = ["value"] → fs !! path = None →
  compare_ref_values_df df path fs = (<[path:=ValuesCsv df]> fs, Ok tt).
Proof.
  intros Hname Hcols Hnone. unfold compare_ref_values_df.
  rewrite (io_bind_ok _ _ fs fs tt)
    by (unfold py_assert; by rewrite bool_decide_eq_true_2).
  rewrite (io_bind_ok _ _ fs fs tt)
    by (unfold py_assert; by rewrite bool_decide_eq_true_2).
  rewrite (io_bind_ok _ _ fs fs false); [done|].
  unfold path_exists. rewrite bool_decide_eq_false_2; [done|].
  rewrite Hnone. by intros [? ?].
Qed.

Lemma compare_ref_values_df_rejected (df : DataFrame string) path (fs : file_system) :
  index_name df ≠ Some "keys" ∨ column_labels df ≠ ["value"] →
  compare_ref_values_df df path fs = (fs, Raise (AssertionError PyNone)).
Proof.
  intros Hbad. unfold compare_ref_values_df.
  destruct (decide (index_name df = Some "keys")) as [Hn|Hn].
  - rewrite (io_bind_ok _ _ fs fs tt)
      by (unfold py_assert; by rewrite bool_decide_eq_true_2).
    destruct Hbad as [?|Hc]; [done|].
    by rewrite (io_bind_raise _ _ fs fs (AssertionError PyNone))
      by (unfold py_assert; by rewrite bool_decide_eq_false_2).
  - by rewrite (io_bind_raise _ _ fs fs (AssertionError PyNone))
      by (unfold py_assert; by rewrite bool_decide_eq_false_2).
Qed.

Lemma compare_ref_values_df_existing (df : DataFrame string) path (fs : file_system) :
  is_Some (fs !! path) → (compare_ref_values_df df path fs).1 = fs.
Proof.
  intros Hsome.
  destruct (decide (index_name df = Some "keys")) as [Hn|Hn];
    [|rewrite compare_ref_values_df_rejected; [done|by left]].
  destruct (decide (column_labels df = ["value"])) as [Hc|Hc];
    [|rewrite compare_ref_values_df_rejected; [done|by right]].
  unfold compare_ref_values_df.
  rewrite (io_bind_ok _ _ fs fs tt)
    by (unfold py_assert; by rewrite bool_decide_eq_true_2).
  rewrite (io_bind_ok _ _ fs fs tt)
    by (unfold py_assert; by rewrite bool_decide_eq_true_2).
  rewrite (io_bind_ok _ _ fs fs true)
    by (unfold path_exists; by rewrite bool_decide_eq_true_2).
  apply keeps_state_bind; [apply keeps_state_read_values|]. intros df_ref.
  apply keeps_state_for_each. intros k.
  apply keeps_state_bind; [apply keeps_state_lift|]. intros v_test.
  apply keeps_state_bind; [apply keeps_state_lift|]. intros v_ref.
  apply keeps_state_bind; [apply keeps_state_lift|]. intros results.
  apply keeps_state_assertTrue.
Qed.

(** X13: what [compare_ref_timeseries_df] does to the files. It never changes
    a reference that exists, whatever the outcome of the comparison; at a
    path that does not exist it writes the frame when the frame's index is
    named time; a frame whose index is not named time is refused by the
    first assertion and nothing is written; and no other path is touched. *)
Theorem compare_ref_timeseries_df_file_system (df : DataFrame Q) (path : string)
    (fs : file_system) :
  (is_Some (fs !! path) → (compare_ref_timeseries_df df path fs).1 = fs) ∧
  (fs !! path = None → index_name df = Some "time" →
   compare_ref_timeseries_df df path fs = (<[path:=TimeseriesCsv df]> fs, Ok tt)) ∧
  (index_name df ≠ Some "time" →
   compare_ref_timeseries_df df path fs = (fs, Raise (AssertionError PyNone))) ∧
  (∀ p, p ≠ path → (compare_ref_timeseries_df df path fs).1 !! p = fs !! p).
Proof.
  split; [apply compare_ref_timeseries_df_existing|]. split.
  { intros Hnone Hn. by apply compare_ref_timeseries_df_absent. }
  split; [apply compare_ref_timeseries_df_rejected|].
  intros p Hp.
  destruct (fs !! path) as [f|] eqn:Hlook.
  - rewrite compare_ref_timeseries_df_existing; [done|]. rewrite Hlook. by exists f.
  - destruct (decide (index_name df = Some "time")) as [Hn|Hn].
    + rewrite compare_ref_timeseries_df_absent by done.
      cbn [fst]. by apply lookup_insert_ne.
    + by rewrite compare_ref_timeseries_df_rejected.
Qed.

(** X14: what [compare_ref_values_df] does to the files. It never changes a
    reference that exists, whatever the outcome of the comparison; at a path
    that does not exist it writes the frame when the frame's index is named
    keys and its only column is value; any other frame is refused by one of
    the first two assertions and nothing is written; and no other path is
    touched. *)
Theorem compare_ref_values_df_file_system (df : DataFrame string) (path : string)
    (fs : file_system) :
  (is_Some (fs !! path) → (compare_ref_values_df df path fs).1 = fs) ∧
  (fs !! path = None → index_name df = Some "keys" → column_labels df = ["value"] →
   compare_ref_values_df df path fs = (<[path:=ValuesCsv df]> fs, Ok tt)) ∧
  (index_name df ≠ Some "keys" ∨ column_labels df ≠ ["value"] →
   compare_ref_values_df df path fs = (fs, Raise (AssertionError PyNone))) ∧
  (∀ p, p ≠ path → (compare_ref_values_df df path fs).1 !! p = fs !! p).
Proof.
  split; [apply compare_ref_values_df_existing|]. split.
  { intros Hnone Hn Hc. by apply compare_ref_values_df_absent. }
  split; [apply compare_ref_values_df_rejected|].
  intros p Hp.
  destruct (fs !! path) as [f|] eqn:Hlook.
  - rewrite compare_ref_values_df_existing; [done|]. rewrite Hlook. by exists f.
  - destruct (decide (index_name df = Some "keys")) as [Hn|Hn];
      [|rewrite compare_ref_values_df_rejected; [done|by left]].
    destruct (decide (column_labels df = ["value"])) as [Hc|Hc];
      [|rewrite compare_ref_values_df_rejected; [done|by right]].
    rewrite compare_ref_values_df_absent by done.
    cbn [fst]. by apply lookup_insert_ne.
Qed.

(** ** Keys of a values frame *)

Lemma all_ok_raise {I} (check : I → exc Q unit) (l : list I) k e :
  k ∈ l → check k = Raise e → ∃ e', all_ok check l = Raise e'.
Proof.
  intros Hk Hc. induction l as [|k' l IH]; [by apply elem_of_nil in Hk|].
  simpl. apply elem_of_cons in Hk as [->|Hk].
  - rewrite Hc. by exists e.
  - destruct (check k') as [[]|e']; [|by exists e']. by apply IH.
Qed.

Lemma loc_missing (df : DataFrame string) key col :
  key ∉ index df → loc df key col = Raise (KeyError key).
Proof.
  intros Hkey. unfold loc.
  assert (list_find (λ k, k = key) (index df) = None) as ->; [|done].
  apply list_find_None, Forall_forall. by intros k Hk ->.
Qed.

Lemma loc_present (df : DataFrame string) key :
  column_labels df = ["value"] → wf_frame df → key ∈ index df →
  ∃ v, loc df key "value" = Ok v.
Proof.
  intros Hcols [_ Hlen] Hkey. unfold loc.
  destruct (list_find (λ k, k = key) (index df)) as [[i k]|] eqn:Hfind.
  2:{ pose proof (proj1 (list_find_None _ _) Hfind) as Hall.
      rewrite Forall_forall in Hall. by destruct (Hall key Hkey). }
  apply list_find_Some in Hfind as (Hi & _ & _).
  apply lookup_lt_Some in Hi.
  unfold column_labels in Hcols.
  destruct (columns df) as [|[l c] [|? ?]] eqn:Hc; try done.
  simpl in Hcols. injection Hcols as ->.
  simpl.
  apply Forall_cons in Hlen as [Hlen _]. simpl in Hlen.
  destruct (c !! i) as [v|] eqn:Hv; [by exists v|].
  apply lookup_ge_None in Hv. lia.
Qed.

Lemma values_check_missing (df df_ref : DataFrame string) key :
  key ∉ index df_ref → ∃ e, values_check df df_ref key = Raise e ∧
    (∀ v, loc df key "value" = Ok v → e = KeyError key).
Proof.
  intros Hkey. unfold values_check.
  destruct (loc df key "value") as [v|e] eqn:E.
  - exists (KeyError key). split; [|done].
    cbn [mbind exc_mbind exc_bind]. by rewrite loc_missing.
  - exists e. split; [done|]. intros v Hv. discriminate Hv.
Qed.

(** X15: a key of the test frame that the existing reference does not hold
    makes [compare_ref_values_df] raise, and leaves the files as they are;
    when it is the first key of a well-formed test frame, the exception is
    the [KeyError] of [df_ref.loc[key,'value']], not an assertion failure. *)
Theorem compare_ref_values_df_test_only_key (df df_ref : DataFrame string)
    (key path : string) (fs : file_system) :
  fs !! path = Some (ValuesCsv df_ref) → index_name df_ref = Some "keys" →
  key ∈ index df → key ∉ index df_ref →
  ∃ e, compare_ref_values_df df path fs = (fs, Raise e) ∧
       (index_name df = Some "keys" → column_labels df = ["value"] → wf_frame df →
        head (index df) = Some key → e = KeyError key).
Proof.
  intros Hex Hname Hin Hout.
  rewrite (compare_values_existing df df_ref path fs Hex Hname).
  destruct (decide (index_name df = Some "keys")) as [Hn|Hn].
  2:{ rewrite bool_decide_eq_false_2 by done. simpl.
      exists (AssertionError PyNone). split; [done|]. by intros ?. }
  rewrite bool_decide_eq_true_2 by done. simpl.
  destruct (decide (column_labels df = ["value"])) as [Hc|Hc].
  2:{ rewrite bool_decide_eq_false_2 by done. simpl.
      exists (AssertionError PyNone). split; [done|]. by intros _ ?. }
  rewrite bool_decide_eq_true_2 by done. simpl.
  destruct (values_check_missing df df_ref key Hout) as (e & He & Hkind).
  destruct (all_ok_raise (values_check df df_ref) (index df) key e Hin He) as [e' He'].
  exists e'. split; [by rewrite He'|].
  intros _ _ Hwf Hhead.
  destruct (index df) as [|k l] eqn:Hidx; [discriminate Hhead|].
  injection Hhead as ->. simpl in He'. rewrite He in He'. simpl in He'.
  injection He' as <-.
  destruct (loc_present df key Hc Hwf) as [v Hv]; [rewrite Hidx; by left|].
  by apply (Hkind v).
Qed.

(** ** The baseline of a values frame *)

Lemma all_ok_all {I} (check : I → exc Q unit) (l : list I) :
  (∀ k, k ∈ l → check k = Ok tt) → all_ok check l = Ok tt.
Proof.
  induction l as [|k l IH]; intros Hall; simpl; [done|].
  rewrite (Hall k) by left. simpl. apply IH. intros k' Hk'. apply Hall. by right.
Qed.

Lemma values_check_self (df : DataFrame string) key :
  column_labels df = ["value"] → wf_frame df → key ∈ index df →
  values_check df df key = Ok tt.
Proof.
  intros Hc Hwf Hkey. unfold values_check.
  destruct (loc_present df key Hc Hwf Hkey) as [v ->].
  cbn [mbind exc_mbind exc_bind].
  by rewrite (proj1 (check_trajectory_self_Q [v])).
Qed.

(** X16: the baseline of a KPI table. On a path that does not exist,
    [compare_ref_values_df] saves a frame indexed by keys with the single
    column value and succeeds; the same frame compared with the reference
    just saved passes, and the files stay as they are. The keys are distinct,
    as those of the KPI dictionary the frame is made of. *)
Theorem compare_ref_values_df_baseline (df : DataFrame string) (path : string)
    (fs : file_system) :
  index_name df = Some "keys" → column_labels df = ["value"] → wf_frame df →
  NoDup (index df) → fs !! path = None →
  ∃ fs', compare_ref_values_df df path fs = (fs', Ok tt) ∧
         fs' = <[path:=ValuesCsv df]> fs ∧
         compare_ref_values_df df path fs' = (fs', Ok tt).
Proof.
  intros Hname Hcols Hwf _ Hnone. exists (<[path:=ValuesCsv df]> fs).
  split; [|split; [done|]].
  - by apply compare_ref_values_df_absent.
  - rewrite (compare_values_existing df df path _ (lookup_insert_eq _ _ _) Hname).
    rewrite !bool_decide_eq_true_2 by done. simpl.
    rewrite all_ok_all; [done|]. intros k Hk. by apply values_check_self.
Qed.

(** ** What the runners do to the reference files *)

Lemma timeseries_cases (df : DataFrame Q) path (fs : file_system) :
  (is_Some (fs !! path) ∧ (compare_ref_timeseries_df df path fs).1 = fs) ∨
  (fs !! path = None ∧
   compare_ref_timeseries_df df path fs = (<[path:=TimeseriesCsv df]> fs, Ok tt)) ∨
  compare_ref_timeseries_df df path fs = (fs, Raise (AssertionError PyNone)).
Proof.
  destruct (decide (index_name df = Some "time")) as [Hn|Hn].
  2:{ right. right. by apply compare_ref_timeseries_df_rejected. }
  destruct (fs !! path) as [f|] eqn:Hlook.
  - left. split; [by exists f|]. apply compare_ref_timeseries_df_existing.
    rewrite Hlook. by exists f.
  - right. left. split; [done|]. by apply compare_ref_timeseries_df_absent.
Qed.

Lemma values_cases (df : DataFrame string) path (fs : file_system) :
  (is_Some (fs !! path) ∧ (compare_ref_values_df df path fs).1 = fs) ∨
  (fs !! path = None ∧
   compare_ref_values_df df path fs = (<[path:=ValuesCsv df]> fs, Ok tt)) ∨
  compare_ref_values_df df path fs = (fs, Raise (AssertionError PyNone)).
Proof.
  destruct (decide (index_name df = Some "keys")) as [Hn|Hn].
  2:{ right. right. apply compare_ref_values_df_rejected. by left. }
  destruct (decide (column_labels df = ["value"])) as [Hc|Hc].
  2:{ right. right. apply compare_ref_values_df_rejected. by right. }
  destruct (fs !! path) as [f|] eqn:Hlook.
  - left. split; [by exists f|]. apply compare_ref_values_df_existing.
    rewrite Hlook. by exists f.
  - right. left. split; [done|]. by apply compare_ref_values_df_absent.
Qed.

Lemma cases_keep {X} (m : file_system → file_system * exc Q X) path new
    (fs : file_system) p f :
  (is_Some (fs !! path) ∧ (m fs).1 = fs) ∨
  (fs !! path = None ∧ ∃ r, m fs = (<[path:=new]> fs, r)) ∨
  (∃ r, m fs = (fs, r)) →
  fs !! p = Some f → (m fs).1 !! p = Some f.
Proof.
  intros [[_ ->]|[[Hnone [r ->]]|[r ->]]] Hp; [done| |done].
  cbn [fst]. rewrite <- Hp. apply lookup_insert_ne. intros <-. congruence.
Qed.

Lemma cases_exist (m : file_system → file_system * exc Q unit) path new
    (fs fs' : file_system) :
  (is_Some (fs !! path) ∧ (m fs).1 = fs) ∨
  (fs !! path = None ∧ m fs = (<[path:=new]> fs, Ok tt)) ∨
  m fs = (fs, Raise (AssertionError PyNone)) →
  m fs = (fs', Ok tt) → is_Some (fs' !! path).
Proof.
  intros [[Hsome Hfs]|[[_ Hrun]|Hrun]] Hok.
  - rewrite Hok in Hfs. simpl in Hfs. by subst fs'.
  - rewrite Hrun in Hok. injection Hok as <-. eexists. apply lookup_insert_eq.
  - rewrite Hrun in Hok. discriminate Hok.
Qed.

Lemma timeseries_keeps (df : DataFrame Q) path (fs : file_system) p f :
  fs !! p = Some f → (compare_ref_timeseries_df df path fs).1 !! p = Some f.
Proof.
  apply (cases_keep _ path (TimeseriesCsv df)).
  destruct (timeseries_cases df path fs) as [?|[[? ?]|?]]; eauto 6.
Qed.

Lemma values_keeps (df : DataFrame string) path (fs : file_system) p f :
  fs !! p = Some f → (compare_ref_values_df df path fs).1 !! p = Some f.
Proof.
  apply (cases_keep _ path (ValuesCsv df)).
  destruct (values_cases df path fs) as [?|[[? ?]|?]]; eauto 6.
Qed.

Lemma with_files_fst {X} (m : io file_system X) w :
  files (with_files m w).1 = (m (files w)).1.
Proof. unfold with_files. by destruct (m (files w)). Qed.

Lemma with_files_snd {X} (m : io file_system X) w :
  (with_files m w).2 = (m (files w)).2.
Proof. unfold with_files. by destruct (m (files w)). Qed.

Lemma keeps_files_same {X} (m : io world X) :
  (∀ w, files (m w).1 = files w) → keeps_files m.
Proof. intros Hm w p f Hp. by rewrite Hm. Qed.

Lemma keeps_files_bind {X Y} (m : io world X) (f : X → io world Y) :
  keeps_files m → (∀ x, keeps_files (f x)) → keeps_files (m ≫= f).
Proof.
  intros Hm Hf w p file Hp. unfold mbind, io_mbind, io_bind.
  pose proof (Hm w p file Hp) as Hw. destruct (m w) as [w' [x|e]]; simpl in Hw.
  - by apply Hf.
  - done.
Qed.

Lemma keeps_files_for_each {I} (l : list I) (body : I → io world unit) :
  (∀ k, keeps_files (body k)) → keeps_files (for_each l body).
Proof.
  intros Hbody. induction l as [|k l IH]; simpl.
  - by intros w p f.
  - apply keeps_files_bind; [apply Hbody|]. intros _. apply IH.
Qed.

Lemma keeps_files_put_scenario price period : keeps_files (put_scenario price period).
Proof. by apply keeps_files_same. Qed.

Lemma post_advance_files remote w : files (post_advance remote w).1 = files w.
Proof.
  unfold post_advance, mbind, io_mbind, io_bind, get_session.
  destruct (phase (session w)); [done|].
  by destruct (sim_exhausted remote (session w)).
Qed.

Lemma keeps_files_post_advance remote : keeps_files (post_advance remote).
Proof. apply keeps_files_same, post_advance_files. Qed.

Lemma results_to_df_loop_ok remote points start final df w :
  ∃ df', results_to_df_loop remote points start final df w = (w, Ok df') ∧
         index_name df' = index_name df ∧
         column_labels df' = column_labels df ++ points.
Proof.
  revert df. induction points as [|point points IH]; intros df; simpl.
  - exists df. by rewrite app_nil_r.
  - erewrite (io_bind_ok (put_results remote point start final)) by reflexivity.
    edestruct IH as (df' & -> & Hname & Hcols). exists df'.
    split; [done|]. rewrite Hname, Hcols. unfold pd_concat_axis1, column_labels.
    destruct (columns df) as [|c cs]; [destruct (index df)|]; cbn [index_name columns].
    + done.
    + done.
    + split; [done|]. rewrite fmap_app. by rewrite <- app_assoc.
Qed.

(** X17: [results_to_df] returns a frame whose index is named time and
    whose columns are the requested points, in the order requested; it
    changes neither the session nor the files. *)
Theorem results_to_df_columns remote points start final w :
  ∃ df, results_to_df remote points start final w = (w, Ok df) ∧
        index_name df = Some "time" ∧ column_labels df = points.
Proof.
  unfold results_to_df.
  destruct (results_to_df_loop_ok remote points start final (mk_frame None [] []) w)
    as (df & Hloop & _ & Hcols).
  eexists. split; [by rewrite (io_bind_ok _ _ _ _ _ Hloop)|]. by split.
Qed.

Lemma keeps_files_results_to_df remote points start final :
  keeps_files (results_to_df remote points start final).
Proof.
  apply keeps_files_same. intros w. unfold results_to_df.
  destruct (results_to_df_loop_ok remote points start final (mk_frame None [] []) w)
    as (df & Hloop & _).
  by rewrite (io_bind_ok _ _ _ _ _ Hloop).
Qed.

Lemma keeps_files_timeseries df path :
  keeps_files (with_files (compare_ref_timeseries_df df path)).
Proof. intros w p f Hp. rewrite with_files_fst. by apply timeseries_keeps. Qed.

Lemma keeps_files_check_kpis remote self label price :
  keeps_files (check_kpis remote self label price).
Proof.
  unfold check_kpis.
  apply keeps_files_bind; [apply keeps_files_put_scenario|]. intros _.
  apply keeps_files_bind; [by apply keeps_files_same|]. intros res_kpi.
  intros w p f Hp. rewrite with_files_fst. by apply values_keeps.
Qed.

Lemma simulation_loop_files remote fuel w w' r :
  simulation_loop remote fuel w = Some (w', r) → files w' = files w.
Proof.
  revert w. induction fuel as [|fuel IH]; intros w; simpl; [done|].
  pose proof (post_advance_files remote w) as Hadv.
  destruct (post_advance remote w) as [w1 [[]|e]]; simpl in Hadv.
  - intros Hloop. apply IH in Hloop. congruence.
  - intros [= <- _]. done.
  - intros [= <- _]. done.
Qed.

Lemma keeps_files_time_period_checks remote self period :
  keeps_files
    (df ← results_to_df remote (points_check self) NegInf PosInf;
     with_files (compare_ref_timeseries_df df
       (reference_path self ("results_" +:+ period +:+ ".csv"))) ≫= λ _,
     for_each price_scenarios (check_kpis remote self period) ≫= λ _,
     put_scenario (Some "constant") None).
Proof.
  apply keeps_files_bind; [apply keeps_files_results_to_df|]. intros df.
  apply keeps_files_bind; [apply keeps_files_timeseries|]. intros _.
  apply keeps_files_bind.
  { apply keeps_files_for_each. intros price. apply keeps_files_check_kpis. }
  intros _. apply keeps_files_put_scenario.
Qed.

(** X20: [run_season] never removes or rewrites a file that exists: whatever
    the outcome of the run, every reference present before it is present,
    unchanged, after it. *)
Theorem run_season_keeps_references remote self season w p f :
  files w !! p = Some f →
  files (run_season remote self season w).1 !! p = Some f.
Proof.
  revert w p f. change (keeps_files (run_season remote self season)).
  unfold run_season.
  apply keeps_files_bind; [by apply keeps_files_same|]. intros start_time. cbv zeta.
  apply keeps_files_bind; [by apply keeps_files_same|]. intros _.
  apply keeps_files_bind; [by apply keeps_files_same|]. intros step_def.
  apply keeps_files_bind; [by apply keeps_files_same|]. intros n.
  apply keeps_files_bind.
  { apply keeps_files_for_each. intros _.
    apply keeps_files_bind; [apply keeps_files_post_advance|]. intros _.
    by apply keeps_files_same. }
  intros _.
  apply keeps_files_bind; [apply keeps_files_put_scenario|]. intros _.
  apply keeps_files_bind; [by apply keeps_files_same|]. intros points.
  apply keeps_files_bind; [apply keeps_files_results_to_df|]. intros df.
  apply keeps_files_bind; [apply keeps_files_timeseries|]. intros _.
  apply keeps_files_for_each. intros price. apply keeps_files_check_kpis.
Qed.

(** X21: [run_time_period] never removes or rewrites a file that exists:
    whenever its simulation loop ends, and whatever the outcome of the run,
    every reference present before it is present, unchanged, after it. *)
Theorem run_time_period_keeps_references remote self period fuel w out p f :
  run_time_period remote self period fuel w = Some out →
  files w !! p = Some f → files out.1 !! p = Some f.
Proof.
  unfold run_time_period. intros Hrun Hp.
  destruct (put_scenario None (Some period) w) as [w1 r1] eqn:Hput.
  assert (files w1 = files w) as Hw1.
  { by injection Hput as <- _. }
  destruct (simulation_loop remote fuel w1) as [[w2 [[]|e]]|] eqn:Hloop; [| |done].
  - apply simulation_loop_files in Hloop.
    injection Hrun as <-. apply keeps_files_time_period_checks. congruence.
  - apply simulation_loop_files in Hloop. injection Hrun as <-. simpl. congruence.
Qed.

(** ** The references after a run *)

Lemma with_files_ok {X} (m : io file_system X) w w' r :
  with_files m w = (w', r) → m (files w) = (files w', r).
Proof. unfold with_files. destruct (m (files w)). by intros [= <- <-]. Qed.

Lemma for_each_preserves {I} (l : list I) (body : I → io world unit)
    (P : world → Prop) w :
  (∀ k w0, P w0 → P (body k w0).1) → P w → P (for_each l body w).1.
Proof.
  intros Hbody. revert w. induction l as [|k l IH]; intros w Hw; simpl; [done|].
  unfold mbind, io_mbind, io_bind. pose proof (Hbody k w Hw) as Hk.
  destruct (body k w) as [w1 [[]|e]]; simpl in Hk; [by apply IH|done].
Qed.

Lemma for_each_ok_all {I} (l : list I) (body : I → io world unit)
    (P : I → world → Prop) w w' :
  (∀ k w0 w1, body k w0 = (w1, Ok tt) → P k w1) →
  (∀ k k' w0, P k w0 → P k (body k' w0).1) →
  for_each l body w = (w', Ok tt) → ∀ k, k ∈ l → P k w'.
Proof.
  intros Hok Hkeep. revert w. induction l as [|k0 l IH]; intros w Hrun k Hk.
  { by apply elem_of_nil in Hk. }
  simpl in Hrun. unfold mbind, io_mbind, io_bind in Hrun.
  destruct (body k0 w) as [w1 [[]|e]] eqn:Hbody; [|discriminate Hrun].
  apply elem_of_cons in Hk as [->|Hk]; [|by apply (IH w1)].
  pose proof (for_each_preserves l body (P k0) w1 (Hkeep k0) (Hok _ _ _ Hbody)) as Hend.
  by rewrite Hrun in Hend.
Qed.

Lemma check_kpis_ok_exists remote self label price w w' :
  check_kpis remote self label price w = (w', Ok tt) →
  is_Some (files w' !!
    reference_path self ("kpis_" +:+ label +:+ "_" +:+ price +:+ ".csv")).
Proof.
  unfold check_kpis.
  rewrite (io_bind_ok _ _ _ _ tt (put_scenario_price price w)).
  erewrite (io_bind_ok (get_kpi remote)) by reflexivity.
  intros Hrun. apply with_files_ok in Hrun.
  eapply cases_exist; [apply values_cases|exact Hrun].
Qed.

Lemma checks_references_exist remote self label df w w' :
  (with_files (compare_ref_timeseries_df df
     (reference_path self ("results_" +:+ label +:+ ".csv"))) ≫= λ _,
   for_each price_scenarios (check_kpis remote self label)) w = (w', Ok tt) →
  is_Some (files w' !! reference_path self ("results_" +:+ label +:+ ".csv")) ∧
  ∀ price, price ∈ price_scenarios →
    is_Some (files w' !!
      reference_path self ("kpis_" +:+ label +:+ "_" +:+ price +:+ ".csv")).
Proof.
  intros Hrun. apply io_bind_inv in Hrun as (w1 & [] & Hcmp & Hsweep).
  apply with_files_ok in Hcmp. split.
  - pose proof (cases_exist _ _ _ _ _ (timeseries_cases _ _ _) Hcmp) as [f Hf].
    exists f.
    pose proof (keeps_files_for_each price_scenarios _
                  (keeps_files_check_kpis remote self label) w1 _ f Hf) as Hkeep.
    by rewrite Hsweep in Hkeep.
  - apply (for_each_ok_all price_scenarios (check_kpis remote self label)
             (λ price w, is_Some (files w !!
                reference_path self ("kpis_" +:+ label +:+ "_" +:+ price +:+ ".csv")))
             w1 w'); [|intros k k' w0 [f Hf]|exact Hsweep].
    + intros k w0 w2. apply check_kpis_ok_exists.
    + exists f. by apply keeps_files_check_kpis.
Qed.

(** X22: when [run_time_period] completes, every reference it compares
    against exists: the results of the period and the KPIs of the period
    under each of the three price scenarios, found or newly saved. *)
Theorem run_time_period_references_exist remote self period fuel w w' :
  run_time_period remote self period fuel w = Some (w', Ok tt) →
  is_Some (files w' !! reference_path self ("results_" +:+ period +:+ ".csv")) ∧
  ∀ price, price ∈ price_scenarios →
    is_Some (files w' !!
      reference_path self ("kpis_" +:+ period +:+ "_" +:+ price +:+ ".csv")).
Proof.
  unfold run_time_period.
  destruct (put_scenario None (Some period) w) as [w1 r1].
  destruct (simulation_loop remote fuel w1) as [[w2 [[]|e]]|]; [|done..].
  intros [= Hrun].
  apply io_bind_inv in Hrun as (w3 & df & _ & Hrun).
  assert (∃ w4, (with_files (compare_ref_timeseries_df df
              (reference_path self ("results_" +:+ period +:+ ".csv"))) ≫= λ _,
            for_each price_scenarios (check_kpis remote self period)) w3 = (w4, Ok tt)
          ∧ files w' = files w4) as (w4 & Hchecks & ->).
  { apply io_bind_inv in Hrun as (w4 & [] & Hcmp & Hrun).
    apply io_bind_inv in Hrun as (w5 & [] & Hsweep & Hput).
    exists w5. rewrite (io_bind_ok _ _ _ _ _ Hcmp). split; [done|].
    rewrite put_scenario_price in Hput. by injection Hput as <-. }
  by apply (checks_references_exist remote self period df w3).
Qed.

(** X23: when [run_season] completes, every reference it compares against
    exists: the results of the season and the KPIs of the season under each
    of the three price scenarios, found or newly saved. *)
Theorem run_season_references_exist remote self season w w' :
  run_season remote self season w = (w', Ok tt) →
  is_Some (files w' !! reference_path self ("results_" +:+ season +:+ ".csv")) ∧
  ∀ price, price ∈ price_scenarios →
    is_Some (files w' !!
      reference_path self ("kpis_" +:+ season +:+ "_" +:+ price +:+ ".csv")).
Proof.
  unfold run_season. intros Hrun.
  apply io_bind_inv in Hrun as (? & ? & _ & Hrun). cbv zeta in Hrun.
  do 7 (apply io_bind_inv in Hrun as (? & ? & _ & Hrun)).
  by apply checks_references_exist in Hrun.
Qed.

(** ** The price scenario after a run *)

Lemma for_each_raise_at {W I} (l : list I) (body : I → io W unit) w w' e :
  for_each l body w = (w', Raise e) →
  ∃ k w0, k ∈ l ∧ body k w0 = (w', Raise e).
Proof.
  revert w. induction l as [|k l IH]; intros w; simpl; [done|].
  unfold mbind, io_mbind, io_bind.
  destruct (body k w) as [w1 [[]|e1]] eqn:Hbody.
  - intros Hrun. destruct (IH w1 Hrun) as (k' & w0 & Hk' & Hb).
    exists k', w0. split; [by right|done].
  - intros [= <- <-]. exists k, w. split; [by left|done].
Qed.

(** X25: the sweep over the price scenarios, as both runners perform it,
    does not restore the price when a check fails: if the sweep raises, it
    was the check of one of the three scenarios that raised, and the remote
    test case is left at that scenario. *)
Theorem price_sweep_failure_leaves_price remote self label w w' e :
  for_each price_scenarios (check_kpis remote self label) w = (w', Raise e) →
  ∃ price w0, price ∈ price_scenarios ∧
    check_kpis remote self label price w0 = (w', Raise e) ∧
    electricity_price (scenario (session w')) = Some price.
Proof.
  intros Hrun. apply for_each_raise_at in Hrun as (price & w0 & Hin & Hbody).
  exists price, w0. split; [done|]. split; [done|].
  pose proof (check_kpis_price remote self label price w0) as Hprice.
  by rewrite Hbody in Hprice.
Qed.

(** ** The seasons *)

(** X18: [run_season] with a season other than winter, summer and
    shoulder raises [ValueError] before any request is sent: the session and
    the files are as they were. *)
Theorem run_season_unknown_season remote self season w :
  season ∉ ["winter"; "summer"; "shoulder"] →
  run_season remote self season w = (w, Raise ValueError).
Proof.
  intros Hs. unfold run_season, season_start.
  rewrite !bool_decide_eq_false_2; [done|..]; intros ->; apply Hs.
  - do 2 right. by left.
  - right. by left.
  - by left.
Qed.

Lemma season_start_known season :
  season ∈ ["winter"; "summer"; "shoulder"] → ∃ t, season_start season = Ok t.
Proof.
  intros Hs. unfold season_start.
  repeat (apply elem_of_cons in Hs as [->|Hs]); [by eexists..|].
  by apply elem_of_nil in Hs.
Qed.

(** X19: with a known season and a default step of zero, [run_season]
    raises [ZeroDivisionError] at [int(length/step_def)], after it has
    initialized the test case at the start of the season; no results are
    compared and no file is written. *)
Theorem run_season_zero_step remote self season w :
  season ∈ ["winter"; "summer"; "shoulder"] →
  (communication_step (session w) == 0)%Q →
  ∃ t, season_start season = Ok t ∧
       run_season remote self season w =
         (mk_world (files w)
            (mk_session (communication_step (session w)) (Some t)
               (mk_scenario None None) Initialized),
          Raise ZeroDivisionError).
Proof.
  intros Hs Hzero. destruct (season_start_known season Hs) as [t Ht].
  exists t. split; [done|]. unfold run_season. rewrite Ht.
  rewrite (io_bind_ok _ _ w w t) by done. cbv zeta.
  erewrite (io_bind_ok (put_initialize t 0)) by reflexivity.
  erewrite (io_bind_ok get_step) by reflexivity.
  cbn [session communication_step].
  apply Qeq_bool_iff in Hzero. rewrite Hzero.
  by erewrite io_bind_raise by reflexivity.
Qed.

(** ** [clean_up] *)

Lemma endswith_inv (s suffix : string) :
  endswith s suffix = true → ∃ p, s = p +:+ suffix.
Proof.
  induction s as [|a s IH]; cbn [endswith].
  - rewrite orb_false_r. intros E%String.eqb_eq. by exists "".
  - intros [E%String.eqb_eq|E]%orb_true_iff.
    + by exists "".
    + destruct (IH E) as [p ->]. by exists (String a p).
Qed.

Lemma endswith_app (p suffix : string) : endswith (p +:+ suffix) suffix = true.
Proof.
  induction p as [|a p IH].
  - change ("" +:+ suffix) with suffix.
    destruct suffix; cbn [endswith]; apply orb_true_iff; left; apply String.eqb_refl.
  - change (String a p +:+ suffix) with (String a (p +:+ suffix)).
    cbn [endswith]. rewrite IH. by rewrite orb_true_r.
Qed.

Lemma last_app_string (p s : string) c :
  last (String.list_ascii_of_string s) = Some c →
  last (String.list_ascii_of_string (p +:+ s)) = Some c.
Proof.
  intros Hs. induction p as [|a p IH]; simpl; [done|].
  by rewrite last_cons, IH.
Qed.

Lemma endswith_last (s suffix : string) c :
  endswith s suffix = true → last (String.list_ascii_of_string suffix) = Some c →
  last (String.list_ascii_of_string s) = Some c.
Proof. intros [p ->]%endswith_inv. apply last_app_string. Qed.

Lemma removable_last (f : string) :
  removable f = true →
  ∃ c, last (String.list_ascii_of_string f) = Some c ∧
       c ∈ ["u"; "o"; "t"; "n"]%char.
Proof.
  unfold removable. rewrite !orb_true_iff.
  intros [[[[E|E]|E]|E]|E].
  - exists "u"%char. split; [by apply (endswith_last _ _ _ E)|by left].
  - exists "o"%char. split; [by apply (endswith_last _ _ _ E)|right; by left].
  - exists "t"%char. split; [by apply (endswith_last _ _ _ E)|do 2 right; by left].
  - exists "t"%char. split; [by apply (endswith_last _ _ _ E)|do 2 right; by left].
  - exists "n"%char. split; [by apply (endswith_last _ _ _ E)|do 3 right; by left].
Qed.

Lemma csv_not_removable (p : string) : removable (p +:+ ".csv") = false.
Proof.
  apply not_true_iff_false. intros (c & Hlast & Hc)%removable_last.
  rewrite (last_app_string p ".csv" "v"%char eq_refl) in Hlast.
  injection Hlast as <-.
  repeat (apply elem_of_cons in Hc as [Hc|Hc]; [discriminate Hc|]).
  by apply elem_of_nil in Hc.
Qed.

Lemma clean_up_loop_keeps (l : list string) (d : directory) :
  (clean_up_loop l d).1 ⊆ d ∧
  ∀ f k, d !! f = Some k → removable f = false →
         (clean_up_loop l d).1 !! f = Some k.
Proof.
  revert d. induction l as [|f0 l IH]; intros d; cbn [clean_up_loop]; [done|].
  destruct (removable f0) eqn:E0; [|apply IH].
  unfold os_remove. destruct (d !! f0) as [[]|] eqn:Hf0; [|done..].
  destruct (IH (delete f0 d)) as [Hsub Hkeep]. split.
  - etrans; [exact Hsub|]. apply delete_subseteq.
  - intros f k Hf Hr. apply Hkeep; [|done].
    rewrite <- Hf. apply lookup_delete_ne. intros <-. congruence.
Qed.

Lemma clean_up_loop_removes (l : list string) (d : directory) :
  NoDup l →
  (∀ f, f ∈ l → removable f = true → d !! f = Some RegularFile) →
  ∃ d', clean_up_loop l d = (d', None) ∧
        ∀ f, d' !! f = if decide (f ∈ l ∧ removable f = true) then None else d !! f.
Proof.
  revert d. induction l as [|f0 l IH]; intros d Hnd Hfiles; cbn [clean_up_loop].
  { exists d. split; [done|]. intros f. rewrite decide_False; [done|].
    intros [Hin _]. by apply elem_of_nil in Hin. }
  apply NoDup_cons in Hnd as [Hf0 Hnd].
  destruct (removable f0) eqn:E0.
  - unfold os_remove. rewrite (Hfiles f0) by (done || by left).
    destruct (IH (delete f0 d) Hnd) as (d' & -> & Hd').
    { intros f Hin Hr. etrans; [apply lookup_delete_ne; by intros <-|].
      apply Hfiles; [by right|done]. }
    exists d'. split; [done|]. intros f. rewrite Hd'.
    destruct (decide (f = f0)) as [->|Hne].
    + rewrite decide_False by (by intros [? _]).
      assert (delete f0 d !! f0 = None) as -> by apply lookup_delete_eq.
      rewrite decide_True; [done|]. split; [by left|done].
    + assert (delete f0 d !! f = d !! f) as -> by (by apply lookup_delete_ne).
      destruct (decide (f ∈ l ∧ removable f = true)) as [[Hin Hr]|Hno].
      * rewrite decide_True; [done|]. split; [by right|done].
      * rewrite decide_False; [done|]. intros [Hin Hr]. apply Hno.
        apply elem_of_cons in Hin as [?|?]; done.
  - destruct (IH d Hnd) as (d' & -> & Hd').
    { intros f Hin Hr. apply Hfiles; [by right|done]. }
    exists d'. split; [done|]. intros f. rewrite Hd'.
    destruct (decide (f ∈ l ∧ removable f = true)) as [[Hin Hr]|Hno].
    + rewrite decide_True; [done|]. split; [by right|done].
    + rewrite decide_False; [done|]. intros [Hin Hr]. apply Hno.
      apply elem_of_cons in Hin as [->|?]; [congruence|done].
Qed.

(** X26: [clean_up] removes nothing but entries named with one of the five
    suffixes, and adds nothing. Whatever its outcome, every entry with
    another name is still there, and so is every entry whose name ends in
    .csv. *)
Theorem clean_up_keeps_other_files (d : directory) :
  (clean_up d).1 ⊆ d ∧
  (∀ f k, d !! f = Some k → removable f = false → (clean_up d).1 !! f = Some k) ∧
  (∀ p k, d !! (p +:+ ".csv") = Some k → (clean_up d).1 !! (p +:+ ".csv") = Some k).
Proof.
  unfold clean_up. cbv zeta.
  destruct (clean_up_loop_keeps (os_listdir d) d) as [Hsub Hkeep].
  split; [exact Hsub|]. split; [exact Hkeep|].
  intros p k Hp. apply Hkeep; [exact Hp|apply csv_not_removable].
Qed.

(** X27: in a directory where no entry named with one of the five suffixes is
    itself a directory, [clean_up] returns normally and leaves exactly the
    entries with other names: no name with the suffix .fmu, .mo, .txt, .mat
    or .json remains, reference files saved as .json included. *)
Theorem clean_up_removes_all (d : directory) :
  (∀ f, removable f = true → d !! f ≠ Some Folder) →
  clean_up d = (filter (λ e, removable e.1 = false) d, None) ∧
  ∀ p suffix, suffix ∈ [".fmu"; ".mo"; ".txt"; ".mat"; ".json"] →
              (clean_up d).1 !! (p +:+ suffix) = None.
Proof.
  intros Hfiles.
  assert (clean_up d = (filter (λ e, removable e.1 = false) d, None)) as Hrun.
  { unfold clean_up. cbv zeta.
    destruct (clean_up_loop_removes (os_listdir d) d) as (d' & Hrun & Hd').
    - apply NoDup_fst_map_to_list.
    - intros f Hin Hr. unfold os_listdir in Hin.
      apply list_elem_of_fmap in Hin as ([f' k] & -> & Hin).
      apply elem_of_map_to_list in Hin. simpl.
      destruct k; [done|]. by destruct (Hfiles f' Hr).
    - rewrite Hrun. f_equal. apply map_eq. intros f. rewrite Hd'.
      destruct (d !! f) as [k|] eqn:Hf.
      + destruct (removable f) eqn:Hr.
        * rewrite decide_True.
          -- symmetry. apply map_lookup_filter_None. right. intros k' _. simpl. congruence.
          -- split; [|done]. unfold os_listdir. apply list_elem_of_fmap.
             exists (f, k). split; [done|]. by apply elem_of_map_to_list.
        * rewrite decide_False by (intros [_ ?]; congruence).
          symmetry. by apply map_lookup_filter_Some.
      + destruct (decide _); symmetry; apply map_lookup_filter_None; by left. }
  split; [exact Hrun|]. intros p suffix Hs. rewrite Hrun. cbn [fst].
  apply map_lookup_filter_None. right. intros k _. simpl.
  assert (removable (p +:+ suffix) = true) as ->; [|done].
  unfold removable.
  repeat (apply elem_of_cons in Hs as [->|Hs];
          [by rewrite endswith_app, ?orb_true_r|]).
  by apply elem_of_nil in Hs.
Qed.

(** ** Further instances *)

Lemma check_trajectory_single_assessment_witness :
  check_trajectory [b64 12 1; b64 1 0] [b64 1 0; b64 1 0]
    = check_once [b64 12 1; b64 1 0] [b64 1 0; b64 1 0].
Proof.
  apply (check_trajectory_single_assessment (A:=binary64)
           [b64 12 1; b64 1 0] [b64 1 0; b64 1 0]).
Defined.

Lemma check_trajectory_result_shape_witness :
  ∃ r, check_trajectory [b64 12 1] [b64 1 0] = Ok r ∧
       (Pass r = true → r = mk_result true PyNone PyNone PyNone) ∧
       (Pass r = false → Message r ≠ PyNone) ∧
       (ErrorMax r = PyNone ↔ IndexMax r = PyNone).
Proof.
  apply (check_trajectory_result_shape (A:=binary64) [b64 12 1] [b64 1 0]).
Defined.

Lemma check_trajectory_pass_iff_witness :
  length [1; 2]%Q = length [1; 2]%Q ∧
  (check_trajectory [1; 2]%Q [1; 2]%Q = Ok (mk_result true PyNone PyNone PyNone)
   ↔ ∀ e, e ∈ combined_errors [1; 2]%Q [1; 2]%Q → (e <= 1 # 1000)%Q).
Proof.
  split; [reflexivity|].
  apply (check_trajectory_pass_iff [1; 2]%Q [1; 2]%Q). reflexivity.
Defined.

Lemma check_trajectory_pass_bounds_witness :
  check_trajectory [10005 # 10000; 2]%Q [1; 2]%Q
    = Ok (mk_result true PyNone PyNone PyNone) ∧
  length [10005 # 10000; 2]%Q = length [1; 2]%Q ∧
  ∀ i yt yr, [10005 # 10000; 2]%Q !! i = Some yt → [1; 2]%Q !! i = Some yr →
             (Qabs (yt - yr) <= 1 # 1000)%Q.
Proof.
  assert (check_trajectory [10005 # 10000; 2]%Q [1; 2]%Q
          = Ok (mk_result true PyNone PyNone PyNone)) as Hpass
    by (vm_compute; reflexivity).
  split; [exact Hpass|].
  apply (check_trajectory_pass_bounds [10005 # 10000; 2]%Q [1; 2]%Q Hpass).
Defined.

Lemma check_trajectory_small_reference_witness :
  length [1 # 200]%Q = length [1 # 250]%Q ∧
  (∀ yr, yr ∈ [1 # 250]%Q → (Qabs yr <= 1 # 100)%Q) ∧
  (check_trajectory [1 # 200]%Q [1 # 250]%Q = Ok (mk_result true PyNone PyNone PyNone)
   ↔ ∀ i yt yr, [1 # 200]%Q !! i = Some yt → [1 # 250]%Q !! i = Some yr →
                (Qabs (yt - yr) <= 1 # 1000)%Q).
Proof.
  assert (∀ yr, yr ∈ [1 # 250]%Q → (Qabs yr <= 1 # 100)%Q) as Hsmall.
  { intros yr Hin. apply list_elem_of_singleton in Hin. rewrite Hin.
    unfold Qle. simpl. lia. }
  split; [reflexivity|]. split; [exact Hsmall|].
  apply (check_trajectory_small_reference [1 # 200]%Q [1 # 250]%Q eq_refl Hsmall).
Defined.

Lemma check_trajectory_failure_index_witness :
  length [1; 6 # 5; 3]%Q = length [1; 1; 1]%Q ∧
  ∃ r, check_trajectory [1; 6 # 5; 3]%Q [1; 1; 1]%Q = Ok r ∧ Pass r = false ∧
    ∃ err_max i_max yt yr,
      r = fail_result err_max i_max yt yr ∧
      [1; 6 # 5; 3]%Q !! i_max = Some yt ∧ [1; 1; 1]%Q !! i_max = Some yr ∧
      combined yt yr = err_max ∧ (1 # 1000 < err_max)%Q ∧
      (∀ e, e ∈ combined_errors [1; 6 # 5; 3]%Q [1; 1; 1]%Q → (e <= err_max)%Q) ∧
      (∀ j e, (j < i_max)%nat →
              combined_errors [1; 6 # 5; 3]%Q [1; 1; 1]%Q !! j = Some e →
              (e < err_max)%Q).
Proof.
  split; [reflexivity|]. eexists. split; [vm_compute; reflexivity|].
  split; [reflexivity|].
  apply (check_trajectory_failure_index [1; 6 # 5; 3]%Q [1; 1; 1]%Q _ eq_refl);
    [vm_compute; reflexivity|reflexivity].
Defined.

Lemma create_test_points_empty_or_n_witness :
  length (s_index (mk_series [0; 1]%Q [5; 7]%Q))
    = length (s_data (mk_series [0; 1]%Q [5; 7]%Q)) ∧
  (s_index (mk_series [0; 1]%Q [5; 7]%Q) = [] →
   create_test_points (mk_series [0; 1]%Q [5; 7]%Q) 3 = Raise ValueError) ∧
  (s_index (mk_series [0; 1]%Q [5; 7]%Q) ≠ [] →
   ∃ r, create_test_points (mk_series [0; 1]%Q [5; 7]%Q) 3 = Ok r ∧
        length (s_index r) = 3%nat ∧ length (s_data r) = 3%nat).
Proof.
  split; [reflexivity|].
  apply (create_test_points_empty_or_n (mk_series [0; 1]%Q [5; 7]%Q) 3). reflexivity.
Defined.

Lemma create_test_points_times_ordered_witness :
  ∃ r, create_test_points (mk_series [2; 0; 1]%Q [5; 7; 9]%Q) 3 = Ok r ∧
    ∃ t_min t_max,
      (t_min ∈ [2; 0; 1]%Q ∧ ∀ t, t ∈ [2; 0; 1]%Q → (t_min <= t)%Q) ∧
      (t_max ∈ [2; 0; 1]%Q ∧ ∀ t, t ∈ [2; 0; 1]%Q → (t <= t_max)%Q) ∧
      (∀ t, t ∈ s_index r → (t_min <= t)%Q ∧ (t <= t_max)%Q) ∧
      (∀ i j ti tj, (i ≤ j)%nat → s_index r !! i = Some ti →
                    s_index r !! j = Some tj → (ti <= tj)%Q).
Proof.
  eexists. split; [vm_compute; reflexivity|].
  apply (create_test_points_times_ordered (mk_series [2; 0; 1]%Q [5; 7; 9]%Q) 3).
  vm_compute. reflexivity.
Defined.

Lemma create_test_points_endpoints_witness :
  StronglySorted Qlt [0; 1; 2]%Q ∧
  length [0; 1; 2]%Q = length [10; 20; 40]%Q ∧ (2 ≤ 5)%nat ∧
  head [10; 20; 40]%Q = Some 10%Q ∧ last [10; 20; 40]%Q = Some 40%Q ∧
  ∃ r, create_test_points (mk_series [0; 1; 2]%Q [10; 20; 40]%Q) 5 = Ok r ∧
       head (s_data r) = Some (round_8g 10) ∧
       last (s_data r) = Some (round_8g 40).
Proof.
  assert (StronglySorted Qlt [0; 1; 2]%Q) as Hs by (repeat constructor).
  split; [exact Hs|]. split; [reflexivity|]. split; [lia|].
  split; [reflexivity|]. split; [reflexivity|].
  apply (create_test_points_endpoints (mk_series [0; 1; 2]%Q [10; 20; 40]%Q) 5 10 40);
    [exact Hs|reflexivity|lia|reflexivity|reflexivity].
Defined.



Lemma compare_ref_values_df_test_only_key_witness :
  ∃ e, compare_ref_values_df
         (mk_frame (Some "keys") ["b"; "a"] [("value", [2; 1]%Q)]) "kpis.csv"
         (<["kpis.csv":=ValuesCsv kpis_a]> ∅)
       = (<["kpis.csv":=ValuesCsv kpis_a]> ∅, Raise e) ∧ e = KeyError "b".
Proof.
  destruct (compare_ref_values_df_test_only_key
              (mk_frame (Some "keys") ["b"; "a"] [("value", [2; 1]%Q)]) kpis_a
              "b" "kpis.csv" (<["kpis.csv":=ValuesCsv kpis_a]> ∅))
    as (e & Hrun & Hkind).
  - apply lookup_insert_eq.
  - reflexivity.
  - by left.
  - intros Ha. by apply list_elem_of_singleton in Ha.
  - exists e. split; [exact Hrun|]. apply Hkind; try reflexivity.
    split; [apply NoDup_singleton|]. by repeat constructor.
Defined.

Lemma compare_ref_values_df_baseline_witness :
  ∃ fs', compare_ref_values_df kpis_a "kpis.csv" ∅ = (fs', Ok tt) ∧
         fs' = <["kpis.csv":=ValuesCsv kpis_a]> ∅ ∧
         compare_ref_values_df kpis_a "kpis.csv" fs' = (fs', Ok tt).
Proof.
  apply (compare_ref_values_df_baseline kpis_a "kpis.csv" ∅); try reflexivity.
  - split; [apply NoDup_singleton|]. by repeat constructor.
  - apply NoDup_singleton.
Defined.

Lemma run_season_unknown_season_witness :
  ("autumn" ∉ ["winter"; "summer"; "shoulder"]) ∧
  run_season example_remote example_self "autumn" example_world
    = (example_world, Raise ValueError).
Proof.
  assert ("autumn" ∉ ["winter"; "summer"; "shoulder"]) as Hs.
  { intros Hin. repeat (apply elem_of_cons in Hin as [Hin|Hin]; [discriminate Hin|]).
    apply elem_of_nil in Hin. destruct Hin. }
  split; [exact Hs|].
  apply (run_season_unknown_season example_remote example_self "autumn"
           example_world Hs).
Defined.

Lemma run_season_zero_step_witness :
  ("winter" ∈ ["winter"; "summer"; "shoulder"]) ∧
  (communication_step (session zero_step_world) == 0)%Q ∧
  ∃ t, season_start "winter" = Ok t ∧
       run_season example_remote example_self "winter" zero_step_world =
         (mk_world (files zero_step_world)
            (mk_session (communication_step (session zero_step_world)) (Some t)
               (mk_scenario None None) Initialized),
          Raise ZeroDivisionError).
Proof.
  assert ("winter" ∈ ["winter"; "summer"; "shoulder"]) as Hs by (by left).
  split; [exact Hs|]. split; [reflexivity|].
  apply (run_season_zero_step example_remote example_self "winter" zero_step_world Hs).
  reflexivity.
Defined.

Lemma run_season_keeps_references_witness :
  files finished_world !! "notes.csv" = Some (ValuesCsv kpis_a) ∧
  files (run_season example_remote example_self "winter" finished_world).1
    !! "notes.csv" = Some (ValuesCsv kpis_a).
Proof.
  assert (files finished_world !! "notes.csv" = Some (ValuesCsv kpis_a)) as Hf
    by reflexivity.
  split; [exact Hf|].
  apply (run_season_keeps_references example_remote example_self "winter"
           finished_world "notes.csv" (ValuesCsv kpis_a) Hf).
Defined.

Lemma run_time_period_keeps_references_witness :
  files finished_world !! "notes.csv" = Some (ValuesCsv kpis_a) ∧
  ∃ out, run_time_period example_remote example_self "peak_heat_day" 1 finished_world
           = Some out ∧
         files out.1 !! "notes.csv" = Some (ValuesCsv kpis_a).
Proof.
  assert (files finished_world !! "notes.csv" = Some (ValuesCsv kpis_a)) as Hf
    by reflexivity.
  split; [exact Hf|].
  eexists. split; [vm_compute; reflexivity|].
  apply (run_time_period_keeps_references example_remote example_self "peak_heat_day"
           1 finished_world _ "notes.csv" (ValuesCsv kpis_a));
    [vm_compute; reflexivity|exact Hf].
Defined.

Lemma run_time_period_references_exist_witness :
  ∃ w', run_time_period example_remote example_self "peak_heat_day" 1 finished_world
          = Some (w', Ok tt) ∧
        is_Some (files w' !!
          reference_path example_self ("results_" +:+ "peak_heat_day" +:+ ".csv")) ∧
        ∀ price, price ∈ price_scenarios →
          is_Some (files w' !!
            reference_path example_self
              ("kpis_" +:+ "peak_heat_day" +:+ "_" +:+ price +:+ ".csv")).
Proof.
  eexists. split; [vm_compute; reflexivity|].
  apply (run_time_period_references_exist example_remote example_self "peak_heat_day"
           1 finished_world).
  vm_compute. reflexivity.
Defined.

Lemma run_season_references_exist_witness :
  run_season example_remote example_self "winter" example_world
    = ((run_season example_remote example_self "winter" example_world).1, Ok tt) ∧
  is_Some (files (run_season example_remote example_self "winter" example_world).1 !!
    reference_path example_self ("results_" +:+ "winter" +:+ ".csv")) ∧
  ∀ price, price ∈ price_scenarios →
    is_Some (files (run_season example_remote example_self "winter" example_world).1 !!
      reference_path example_self ("kpis_" +:+ "winter" +:+ "_" +:+ price +:+ ".csv")).
Proof.
  assert (run_season example_remote example_self "winter" example_world
          = ((run_season example_remote example_self "winter" example_world).1, Ok tt))
    as Hrun by (vm_compute; reflexivity).
  split; [exact Hrun|].
  apply (run_season_references_exist example_remote example_self "winter"
           example_world _ Hrun).
Defined.

Lemma run_time_period_restores_constant_witness :
  ∃ w', run_time_period example_remote example_self "peak_heat_day" 1 finished_world
          = Some (w', Ok tt) ∧
        electricity_price (scenario (session w')) = Some "constant".
Proof.
  eexists. split; [vm_compute; reflexivity|].
  apply (run_time_period_restores_constant example_remote example_self "peak_heat_day"
           1 finished_world).
  vm_compute. reflexivity.
Defined.

Lemma price_sweep_failure_leaves_price_witness :
  ∃ w' e,
    for_each price_scenarios (check_kpis example_remote example_self "winter")
      stale_kpis_world = (w', Raise e) ∧
    ∃ price w0, price ∈ price_scenarios ∧
      check_kpis example_remote example_self "winter" price w0 = (w', Raise e) ∧
      electricity_price (scenario (session w')) = Some price.
Proof.
  do 2 eexists. split; [vm_compute; reflexivity|].
  apply (price_sweep_failure_leaves_price example_remote example_self "winter"
           stale_kpis_world).
  vm_compute. reflexivity.
Defined.

Lemma clean_up_removes_all_witness :
  (∀ f, removable f = true →
        ({["model.fmu" := RegularFile; "results.csv" := RegularFile;
           "kpis.json" := RegularFile; "figures" := Folder]} : directory) !! f
        ≠ Some Folder) ∧
  clean_up {["model.fmu" := RegularFile; "results.csv" := RegularFile;
             "kpis.json" := RegularFile; "figures" := Folder]}
    = ({["results.csv" := RegularFile; "figures" := Folder]}, None).
Proof.
  assert (∀ f, removable f = true →
          ({["model.fmu" := RegularFile; "results.csv" := RegularFile;
             "kpis.json" := RegularFile; "figures" := Folder]} : directory) !! f
          ≠ Some Folder) as Hfiles.
  { intros f Hr Hf. apply elem_of_map_to_list in Hf.
    remember (map_to_list _) as l eqn:Hl in Hf. vm_compute in Hl. subst l.
    repeat (apply elem_of_cons in Hf as [Hf|Hf];
            [inversion Hf; subst; vm_compute in Hr; discriminate Hr|]).
    by apply elem_of_nil in Hf. }
  split; [exact Hfiles|].
  rewrite (proj1 (clean_up_removes_all _ Hfiles)). reflexivity.
Defined.
